(** * PaperBanana Lite: the multi-agent refinement pipeline

    A shallow embedding of [scripts/paperbanana_lite.py]: the retrieval
    selector ([retrieve]), the planner and stylist, the two renderers
    ([_generate_diagram], [_generate_plot] with [_extract_code] and
    [_execute_plot_code]), the critic ([critique]) and the orchestrator
    ([generate]), followed by the properties of the specification that
    concern them.

    Conventions.
    - A Python [str] is a Rocq [string]; its characters are read as code
      points below 256.
    - A value decoded by [json.loads] is a [json]; every Python value that
      the pipeline passes around after decoding (selected ids, critic
      suggestions, revised descriptions) keeps that type, since the code
      performs no validation of its own.
    - The outside world (model gateway, image service, child process,
      files) is a state [world] read and written through a state and
      exception monad [M]; what the outside world answers is fixed by an
      environment [Env], over which every theorem quantifies.
    - [print] calls and the wording of the prompt templates have no
      influence on control flow and are left out. *)

From Stdlib Require Import ZArith Ascii String List Lia Floats.
From stdpp Require Import gmap strings list pretty.

Set Warnings "-register-all".

Local Open Scope Z_scope.
Local Open Scope nat_scope.

(** ** Python strings *)

Module PyStr.

(** Characters that cannot be written inside a literal. *)
Definition dquote : ascii := ascii_of_nat 34.
Definition newline : ascii := ascii_of_nat 10.

(** [str.find(sub)]: offset of the first occurrence of [sub]. *)
Fixpoint find (sub s : string) : option nat :=
  if String.prefix sub s then Some 0
  else match s with
       | EmptyString => None
       | String _ s' => S <$> find sub s'
       end.

Fixpoint drop (n : nat) (s : string) : string :=
  match n, s with
  | S n', String _ s' => drop n' s'
  | _, _ => s
  end.

(** [str.find(sub, start)] for [0 <= start]; an offset into [s]. *)
Definition find_from (sub s : string) (start : nat) : option nat :=
  if String.length s <? start then None
  else (λ k, start + k) <$> find sub (drop start s).

(** [sub in s] *)
Definition contains (sub s : string) : bool :=
  match find sub s with Some _ => true | None => false end.

(** [s[a:b]] for [0 <= a], [0 <= b]. *)
Definition slice (s : string) (a b : nat) : string :=
  String.substring a (b - a) s.

(** Code points below 256 for which [str.isspace] holds; these are the
    characters [str.strip()] removes. *)
Definition isspace (c : ascii) : bool :=
  let n := nat_of_ascii c in
  ((9 <=? n) && (n <=? 13)) || ((28 <=? n) && (n <=? 32))
  || (n =? 133) || (n =? 160).

Fixpoint lstrip (s : string) : string :=
  match s with
  | String c s' => if isspace c then lstrip s' else s
  | EmptyString => EmptyString
  end.

Fixpoint rstrip (s : string) : string :=
  match s with
  | EmptyString => EmptyString
  | String c s' =>
      match rstrip s' with
      | EmptyString => if isspace c then EmptyString else String c EmptyString
      | r => String c r
      end
  end.

Definition strip (s : string) : string := rstrip (lstrip s).

(** [sub] occurs in [s] at offset [k]. *)
Definition occurs_at (sub s : string) (k : nat) : Prop :=
  ∃ pre post, s = pre +:+ sub +:+ post ∧ String.length pre = k.

(** The first occurrence of [sub] in [s] is at offset [k]. *)
Definition first_at (sub s : string) (k : nat) : Prop :=
  occurs_at sub s k ∧ ∀ j, j < k → ¬ occurs_at sub s j.

Definition absent (sub s : string) : Prop := ∀ k, ¬ occurs_at sub s k.

End PyStr.

(** ** Exceptions and results *)

Inductive exn :=
| ValueError | TypeError | AttributeError
| FileNotFoundError | UnidentifiedImageError
| UnicodeDecodeError
| RetryError.

Inductive outcome (A : Type) :=
| Ok (a : A)
| Raise (e : exn).
Arguments Ok {A} a.
Arguments Raise {A} e.

(** ** Code extraction (plot renderer) *)

Definition fence : string := "```".
Definition python_fence : string := "```python".

(** [str.index(sub, start)]: as [find], but absent means [ValueError]. *)
Definition index (s sub : string) (start : nat) : outcome nat :=
  match PyStr.find_from sub s start with
  | Some k => Ok k
  | None => Raise ValueError
  end.

Definition _extract_code (response : string) : outcome string :=
  if PyStr.contains python_fence response then
    match index response python_fence 0 with
    | Raise e => Raise e
    | Ok k =>
        let start := k + String.length python_fence in
        match index response fence start with
        | Raise e => Raise e
        | Ok end_ => Ok (PyStr.strip (PyStr.slice response start end_))
        end
    end
  else if PyStr.contains fence response then
    match index response fence 0 with
    | Raise e => Raise e
    | Ok k =>
        let start := k + 3 in
        match index response fence start with
        | Raise e => Raise e
        | Ok end_ => Ok (PyStr.strip (PyStr.slice response start end_))
        end
    end
  else Ok (PyStr.strip response).

Definition nl : string := String PyStr.newline EmptyString.

(** ** JSON values, as [json.loads] builds them

    A [dict] is kept as its items in insertion order; [list], [str],
    [int], [float], [bool] and [None] are the other Python types the
    decoder produces. *)

Inductive json :=
| JNull
| JBool (b : bool)
| JInt (z : Z)
| JFloat (f : float)
| JStr (s : string)
| JArr (items : list json)
| JObj (members : list (string * json)).

Module Py.

(** [bool(v)] *)
Definition truthy (v : json) : bool :=
  match v with
  | JNull => false
  | JBool b => b
  | JInt z => negb (z =? 0)%Z
  | JFloat f => negb (PrimFloat.eqb f PrimFloat.zero)
  | JStr s => negb (String.length s =? 0)
  | JArr l => negb (length l =? 0)
  | JObj m => negb (length m =? 0)
  end.

(** [len(v)]; [TypeError] on values without a length. *)
Definition len (v : json) : outcome nat :=
  match v with
  | JStr s => Ok (String.length s)
  | JArr l => Ok (length l)
  | JObj m => Ok (length m)
  | _ => Raise TypeError
  end.

Fixpoint chars (s : string) : list json :=
  match s with
  | EmptyString => []
  | String c s' => JStr (String c EmptyString) :: chars s'
  end.

(** The items [for x in v] visits; [TypeError] when [v] is not iterable. *)
Definition iter (v : json) : outcome (list json) :=
  match v with
  | JArr l => Ok l
  | JStr s => Ok (chars s)
  | JObj m => Ok (map (λ kv, JStr (fst kv)) m)
  | _ => Raise TypeError
  end.

(** Lookup in the items of a [dict]. *)
Fixpoint assoc (k : string) (m : list (string * json)) : option json :=
  match m with
  | [] => None
  | (k', v) :: m' => if String.eqb k k' then Some v else assoc k m'
  end.

(** [d[k] = v]: an existing key keeps its place. *)
Fixpoint dict_set (k : string) (v : json) (m : list (string * json))
  : list (string * json) :=
  match m with
  | [] => [(k, v)]
  | (k', v') :: m' =>
      if String.eqb k k' then (k, v) :: m' else (k', v') :: dict_set k v m'
  end.

(** [data.get(k, default)]; only a [dict] has the method. *)
Definition get (data : json) (k : string) (dflt : json) : outcome json :=
  match data with
  | JObj m => Ok (default dflt (assoc k m))
  | _ => Raise AttributeError
  end.

(** Whether [hash(v)] succeeds, as a [dict] membership test requires. *)
Definition hashable (v : json) : bool :=
  match v with
  | JArr _ | JObj _ => false
  | _ => true
  end.

(** [l[:n]] *)
Definition slice_to {A} (l : list A) (n : Z) : list A :=
  if (0 <=? n)%Z then take (Z.to_nat n) l
  else take (length l - Z.to_nat (- n)) l.

End Py.

(** ** A reference decoder for [json.loads]

    The pipeline is verified for an arbitrary decoder (field [json_loads]
    of [Env]).  [Json.loads] below decodes the documents whose numbers are
    integers and whose strings have no [\u] escape, as [json.loads] does;
    it serves to run the pipeline on concrete model responses. *)

Module Json.

Definition is_ws (c : ascii) : bool :=
  let n := nat_of_ascii c in
  (n =? 32) || (n =? 9) || (n =? 10) || (n =? 13).

Fixpoint skip_ws (s : string) : string :=
  match s with
  | String c s' => if is_ws c then skip_ws s' else s
  | EmptyString => EmptyString
  end.

Definition digit (c : ascii) : option Z :=
  let n := nat_of_ascii c in
  if (48 <=? n) && (n <=? 57) then Some (Z.of_nat (n - 48)) else None.

Fixpoint digits (acc : Z) (s : string) : Z * string :=
  match s with
  | String c s' =>
      match digit c with
      | Some d => digits (10 * acc + d)%Z s'
      | None => (acc, s)
      end
  | EmptyString => (acc, s)
  end.

(** A fraction or an exponent starts here: outside the fragment. *)
Definition float_tail (s : string) : bool :=
  match s with
  | String c _ =>
      let n := nat_of_ascii c in (n =? 46) || (n =? 101) || (n =? 69)
  | EmptyString => false
  end.

(** An optional minus sign, then [0] or a digit string without leading
    zero. *)
Definition number (s : string) : option (Z * string) :=
  let '(neg, s1) :=
    match s with
    | String c s' => if nat_of_ascii c =? 45 then (true, s') else (false, s)
    | EmptyString => (false, s)
    end in
  match s1 with
  | String c s2 =>
      match digit c with
      | Some d =>
          let '(n, rest) := if (d =? 0)%Z then (0%Z, s2) else digits d s2 in
          if float_tail rest then None
          else Some (if neg then (- n)%Z else n, rest)
      | None => None
      end
  | EmptyString => None
  end.

Definition unescape (c : ascii) : option ascii :=
  let n := nat_of_ascii c in
  if n =? 34 then Some c
  else if n =? 92 then Some c
  else if n =? 47 then Some c
  else if n =? 98 then Some (ascii_of_nat 8)
  else if n =? 102 then Some (ascii_of_nat 12)
  else if n =? 110 then Some (ascii_of_nat 10)
  else if n =? 114 then Some (ascii_of_nat 13)
  else if n =? 116 then Some (ascii_of_nat 9)
  else None.

(** The characters of a string literal, after its opening quote. *)
Fixpoint str_body (s : string) : option (string * string) :=
  match s with
  | EmptyString => None
  | String c s' =>
      let n := nat_of_ascii c in
      if n =? 34 then Some (EmptyString, s')
      else if n =? 92 then
        match s' with
        | String e s'' =>
            match unescape e, str_body s'' with
            | Some ch, Some (body, rest) => Some (String ch body, rest)
            | _, _ => None
            end
        | EmptyString => None
        end
      else if n <? 32 then None
      else
        match str_body s' with
        | Some (body, rest) => Some (String c body, rest)
        | None => None
        end
  end.

Definition expect (c : nat) (s : string) : option string :=
  match s with
  | String c' s' => if nat_of_ascii c' =? c then Some s' else None
  | EmptyString => None
  end.

Section Composite.
Variable value : string → option (json * string).

(** Array items, positioned at the start of an item. *)
Fixpoint items (fuel : nat) (acc : list json) (s : string)
  : option (list json * string) :=
  match fuel with
  | 0 => None
  | S fuel' =>
      match value s with
      | None => None
      | Some (v, rest) =>
          match skip_ws rest with
          | String c rest' =>
              if nat_of_ascii c =? 44 then items fuel' (acc ++ [v]) rest'
              else if nat_of_ascii c =? 93 then Some (acc ++ [v], rest')
              else None
          | EmptyString => None
          end
      end
  end.

(** Object members, positioned at (whitespace before) a key. *)
Fixpoint members (fuel : nat) (acc : list (string * json)) (s : string)
  : option (list (string * json) * string) :=
  match fuel with
  | 0 => None
  | S fuel' =>
      match expect 34 (skip_ws s) with
      | None => None
      | Some s1 =>
          match str_body s1 with
          | None => None
          | Some (k, s2) =>
              match expect 58 (skip_ws s2) with
              | None => None
              | Some s3 =>
                  match value s3 with
                  | None => None
                  | Some (v, rest) =>
                      let acc' := Py.dict_set k v acc in
                      match skip_ws rest with
                      | String c rest' =>
                          if nat_of_ascii c =? 44 then members fuel' acc' rest'
                          else if nat_of_ascii c =? 125 then Some (acc', rest')
                          else None
                      | EmptyString => None
                      end
                  end
              end
          end
      end
  end.
End Composite.

Definition literal (lit : string) (v : json) (s : string)
  : option (json * string) :=
  if String.prefix lit s
  then Some (v, PyStr.drop (String.length lit) s) else None.

Fixpoint value (fuel : nat) (s : string) : option (json * string) :=
  match fuel with
  | 0 => None
  | S fuel' =>
      match skip_ws s with
      | EmptyString => None
      | String c rest as s0 =>
          let n := nat_of_ascii c in
          if n =? 91 then
            match expect 93 (skip_ws rest) with
            | Some rest' => Some (JArr [], rest')
            | None =>
                match items (value fuel') fuel' [] rest with
                | Some (l, rest') => Some (JArr l, rest')
                | None => None
                end
            end
          else if n =? 123 then
            match expect 125 (skip_ws rest) with
            | Some rest' => Some (JObj [], rest')
            | None =>
                match members (value fuel') fuel' [] rest with
                | Some (m, rest') => Some (JObj m, rest')
                | None => None
                end
            end
          else if n =? 34 then
            match str_body rest with
            | Some (str, rest') => Some (JStr str, rest')
            | None => None
            end
          else if n =? 110 then literal "null" JNull s0
          else if n =? 116 then literal "true" (JBool true) s0
          else if n =? 102 then literal "false" (JBool false) s0
          else
            match number s0 with
            | Some (z, rest') => Some (JInt z, rest')
            | None => None
            end
      end
  end.

(** [None] stands for [json.JSONDecodeError]. *)
Definition loads (s : string) : option json :=
  match value (S (String.length s)) s with
  | Some (v, rest) =>
      match skip_ws rest with
      | EmptyString => Some v
      | String _ _ => None
      end
  | None => None
  end.

End Json.

(** ** The outside world *)

(** A PIL image: its size and either one solid colour or raster data. *)
Inductive pixels :=
| Solid (r g b : Z)
| Raster (data : string).

Record image := { width : Z; height : Z; content : pixels }.

(** What a path of the file system holds. *)
Inductive file :=
| FImage (im : image)
| FJson (j : json)
| FData (bytes : string).

(** How [subprocess.run(..., capture_output=True, text=True, timeout=60)]
    ends: the child exits with a return code and what it wrote to its
    standard output and error is text; or the timeout expires; or the
    child ends with some return code but what it wrote is not valid
    text, so that decoding the captured output fails.  In each case the
    child may have changed the files. *)
Inductive child_result :=
| Completed (returncode : Z) (files : gmap string file)
| TimeoutExpired (files : gmap string file)
| Undecodable (returncode : Z) (files : gmap string file).

(** The answers of the collaborators of one run.  The [n]-th call of a
    gateway function gets the [n]-th answer; [None] is the gateway giving
    up after its retries ([tenacity.RetryError]). *)
Record Env := {
  json_loads : string → option json;
  vlm_reply : nat → option string;
  image_reply : nat → option image;
  child_run : nat → string → gmap string file → child_result;
  re_sub_output_path : string → string;
  run_id : string;
}.

Record world := {
  fs : gmap string file;
  vlm_calls : nat;
  image_calls : nat;
  child_runs : nat;
}.

Definition set_fs (f : gmap string file → gmap string file) (w : world) : world :=
  {| fs := f (fs w); vlm_calls := vlm_calls w;
     image_calls := image_calls w; child_runs := child_runs w |}.

(** ** The state and exception monad *)

Definition M (A : Type) : Type := world → outcome A * world.

#[global] Instance M_ret : MRet M := λ A a w, (Ok a, w).

#[global] Instance M_bind : MBind M := λ A B f m w,
  match m w with
  | (Ok a, w') => f a w'
  | (Raise e, w') => (Raise e, w')
  end.

Definition raise {A} (e : exn) : M A := λ w, (Raise e, w).

Definition lift {A} (o : outcome A) : M A := λ w, (o, w).

Definition get_world : M world := λ w, (Ok w, w).

Definition modify (f : world → world) : M unit := λ w, (Ok tt, f w).

(** Writing a file: [image.save(path)], [json.dump(obj, f)]. *)
Definition write_file (path : string) (f : file) : M unit :=
  modify (set_fs (λ m, <[path := f]> m)).

(** [Path(path).exists()] *)
Definition path_exists (path : string) : M bool :=
  w ← get_world; mret (bool_decide (is_Some (fs w !! path))).

(** [Image.open(path)] *)
Definition image_open (path : string) : M image :=
  w ← get_world;
  match fs w !! path with
  | Some (FImage im) => mret im
  | Some _ => raise UnidentifiedImageError
  | None => raise FileNotFoundError
  end.

(** [pathlib]'s [dir / name], as the string [str()] makes of it. *)
Definition path_join (dir name : string) : string := dir +:+ "/" +:+ name.

Section Pipeline.
Context (E : Env).

(** *** API wrappers *)

Definition call_vlm : M string := λ w,
  let w' := {| fs := fs w; vlm_calls := S (vlm_calls w);
               image_calls := image_calls w; child_runs := child_runs w |} in
  match vlm_reply E (vlm_calls w) with
  | Some text => (Ok text, w')
  | None => (Raise RetryError, w')
  end.

Definition generate_image : M image := λ w,
  let w' := {| fs := fs w; vlm_calls := vlm_calls w;
               image_calls := S (image_calls w); child_runs := child_runs w |} in
  match image_reply E (image_calls w) with
  | Some im => (Ok im, w')
  | None => (Raise RetryError, w')
  end.

(** [subprocess.run([sys.executable, temp_path], capture_output=True,
    text=True, timeout=60)]; the script file is created before and
    unlinked after the call.  Captured output that does not decode makes
    the call raise [UnicodeDecodeError], whatever the child's return
    code; the expired timeout is an exception too, but the one the
    caller handles, so it is handed over as a result. *)
Definition subprocess_run (full_code : string) : M child_result := λ w,
  let r := child_run E (child_runs w) full_code (fs w) in
  let files :=
    match r with
    | Completed _ m | TimeoutExpired m | Undecodable _ m => m
    end in
  let w' := {| fs := files; vlm_calls := vlm_calls w;
               image_calls := image_calls w; child_runs := S (child_runs w) |} in
  match r with
  | Undecodable _ _ => (Raise UnicodeDecodeError, w')
  | _ => (Ok r, w')
  end.

(** *** Reference examples *)

Record example := {
  id : string;
  source_context : string;
  caption : string;
  image_path : string;
  category : option string;
}.

(** [{c["id"]: c for c in candidates}]: a later candidate replaces an
    earlier one with the same id. *)
Definition id_to_example (candidates : list example) : gmap string example :=
  foldl (λ m c, <[id c := c]> m) ∅ candidates.

(** [x or y]: [x] when it is truthy, else [y] is evaluated. *)
Definition py_or (x : json) (y : outcome json) : outcome json :=
  if Py.truthy x then Ok x else y.

Definition bind_outcome {A B} (o : outcome A) (k : A → outcome B) : outcome B :=
  match o with
  | Ok a => k a
  | Raise e => Raise e
  end.

(** [data.get("selected_ids") or data.get("top_10_papers")
     or data.get("top_10_plots") or []] *)
Definition selected_ids_of (data : json) : outcome json :=
  bind_outcome (Py.get data "selected_ids" JNull) (λ a,
  py_or a (
  bind_outcome (Py.get data "top_10_papers" JNull) (λ b,
  py_or b (
  bind_outcome (Py.get data "top_10_plots" JNull) (λ c,
  py_or c (Ok (JArr []))))))).

(** The loop [for eid in selected_ids: if eid in id_to_example: ...];
    the membership test hashes [eid]. *)
Fixpoint select_loop (m : gmap string example) (eids : list json)
    (selected : list example) : outcome (list example) :=
  match eids with
  | [] => Ok selected
  | eid :: eids' =>
      if Py.hashable eid then
        match eid with
        | JStr k =>
            match m !! k with
            | Some c => select_loop m eids' (selected ++ [c])
            | None => select_loop m eids' selected
            end
        | _ => select_loop m eids' selected
        end
      else Raise TypeError
  end.

(** *** Agent functions *)

Definition retrieve (source_context caption : string)
    (candidates : list example) (num_examples : Z) (mode : string)
  : M (list example) :=
  match candidates with
  | [] => mret []
  | _ :: _ =>
      if (Z.of_nat (length candidates) <=? num_examples)%Z then mret candidates
      else
        response ← call_vlm;
        match json_loads E response with
        | None => mret (Py.slice_to candidates num_examples)
        | Some data =>
            selected_ids ← lift (selected_ids_of data);
            eids ← lift (Py.iter selected_ids);
            selected ← lift (select_loop (id_to_example candidates) eids []);
            mret (Py.slice_to selected num_examples)
        end
  end.

Definition plan (source_context caption : string) (examples : list example)
    (mode : string) : M string :=
  call_vlm.

Definition style (description source_context caption mode : string) : M string :=
  call_vlm.

(** *** Renderers *)

Definition dq : string := String PyStr.dquote EmptyString.

(** [Image.new("RGB", (1024, 768), color=(255, 255, 255))] *)
Definition placeholder : image :=
  {| width := 1024; height := 768; content := Solid 255 255 255 |}.

Definition _generate_diagram (description : json) (output_path : option string)
    (iteration : nat) : M string :=
  image ← generate_image;
  let output_path :=
    match output_path with
    | Some p => p
    | None => "diagram_iter_" +:+ pretty iteration +:+ ".png"
    end in
  _ ← write_file output_path (FImage image);
  mret output_path.

(** The script handed to the child: the generated code without its own
    [OUTPUT_PATH] assignments, after the injected one. *)
Definition full_code (code output_path : string) : string :=
  let code := re_sub_output_path E code in
  "OUTPUT_PATH = " +:+ dq +:+ output_path +:+ dq +:+ nl +:+ code.

(** The [try] has an [except] for [subprocess.TimeoutExpired] alone:
    any other exception of [subprocess.run] leaves the function. *)
Definition _execute_plot_code (code output_path : string) : M bool :=
  result ← subprocess_run (full_code code output_path);
  match result with
  | Completed returncode _ =>
      if negb (returncode =? 0)%Z then mret false
      else path_exists output_path
  | TimeoutExpired _ => mret false
  | Undecodable _ _ => raise UnicodeDecodeError
  end.

(** [full_description += "..."] with a [str] on the right: defined when
    the left side is a [str] or a [list].  For a [str] the resulting
    text only enters the prompt.  A [list] is extended in place; the
    pipeline's descriptions are texts, and this extension is not
    tracked here. *)
Definition iadd_text (description : json) : outcome unit :=
  match description with
  | JStr _ | JArr _ => Ok tt
  | _ => Raise TypeError
  end.

(** [if output_path is None: output_path = f"plot_iter_{iteration}.png"] *)
Definition plot_output_path (output_path : option string) (iteration : nat)
  : string :=
  match output_path with
  | Some p => p
  | None => "plot_iter_" +:+ pretty iteration +:+ ".png"
  end.

Definition _generate_plot (description raw_data : json)
    (output_path : option string) (iteration : nat) : M string :=
  _ ← (if Py.truthy raw_data then lift (iadd_text description) else mret tt);
  code_response ← call_vlm;
  code ← lift (_extract_code code_response);
  let output_path := plot_output_path output_path iteration in
  success ← _execute_plot_code code output_path;
  _ ← (if negb success then write_file output_path (FImage placeholder)
       else mret tt);
  mret output_path.

Definition visualize (description : json) (mode : string) (raw_data : json)
    (output_path : option string) (iteration : nat) : M string :=
  if String.eqb mode "plot"
  then _generate_plot description raw_data output_path iteration
  else _generate_diagram description output_path iteration.

(** *** Critic *)

Record critique_result := {
  critic_suggestions : json;
  revised_description : json;
}.

Definition is_str (v : json) : bool :=
  match v with JStr _ => true | _ => false end.

(** ["; ".join(suggestions[:3])]: a [dict] cannot be sliced, and the
    items joined must be [str]. *)
Definition join_first3 (suggestions : json) : outcome unit :=
  match suggestions with
  | JArr l => if forallb is_str (take 3 l) then Ok tt else Raise TypeError
  | JStr _ => Ok tt
  | _ => Raise TypeError
  end.

Definition critique (image_path : string) (description : json)
    (source_context caption mode : string) : M critique_result :=
  image ← image_open image_path;
  response ← call_vlm;
  result ←
    match json_loads E response with
    | Some data =>
        cs ← lift (Py.get data "critic_suggestions" (JArr []));
        rd ← lift (Py.get data "revised_description" JNull);
        mret {| critic_suggestions := cs; revised_description := rd |}
    | None =>
        mret {| critic_suggestions := JArr []; revised_description := JNull |}
    end;
  n ← lift (Py.len (critic_suggestions result));
  _ ← (if 0 <? n then lift (join_first3 (critic_suggestions result))
       else mret tt);
  mret result.

(** *** Pipeline *)

Definition NUM_RETRIEVAL_EXAMPLES : Z := 10.

(** The [iter_data] dictionary of one iteration. *)
Record iter_data := {
  iteration : nat;
  description : json;
  crit : critique_result;
}.

Definition iter_data_json (d : iter_data) : json :=
  JObj [("iteration", JInt (Z.of_nat (iteration d)));
        ("description", description d);
        ("critic_suggestions", critic_suggestions (crit d));
        ("revised_description", revised_description (crit d))].

(** The variables of the refinement loop; [history] lists the
    [iter_data] written so far, one per executed iteration. *)
Record loop_state := {
  current_description : json;
  final_image_path : option string;
  history : list iter_data;
}.

(** [shutil.copy2(src, dst)] *)
Definition copy2 (src : option string) (dst : string) : M unit :=
  match src with
  | None => raise TypeError
  | Some p =>
      w ← get_world;
      match fs w !! p with
      | Some f => write_file dst f
      | None => raise FileNotFoundError
      end
  end.

Definition iter_png (run_dir : string) (n : nat) : string :=
  path_join run_dir ("iter_" +:+ pretty n +:+ ".png").

Definition iter_details (run_dir : string) (n : nat) : string :=
  path_join run_dir ("iter_" +:+ pretty n +:+ "_details.json").

Section Run.
Context (source_context caption mode run_dir : string) (raw_data : json).

(** [for i in range(iterations)], with [n] iterations left and the
    loop variable at [i]. *)
Fixpoint refine (n i : nat) (st : loop_state) : M loop_state :=
  match n with
  | 0 => mret st
  | S n' =>
      image_path ← visualize (current_description st) mode raw_data
                      (Some (iter_png run_dir (i + 1))) (i + 1);
      crit ← critique image_path (current_description st)
                source_context caption mode;
      let d := {| iteration := i + 1;
                  description := current_description st;
                  crit := crit |} in
      _ ← write_file (iter_details run_dir (i + 1)) (FJson (iter_data_json d));
      n_suggestions ← lift (Py.len (critic_suggestions crit));
      let needs_revision := 0 <? n_suggestions in
      if needs_revision && Py.truthy (revised_description crit)
      then refine n' (S i)
             {| current_description := revised_description crit;
                final_image_path := Some image_path;
                history := history st ++ [d] |}
      else mret {| current_description := current_description st;
                   final_image_path := Some image_path;
                   history := history st ++ [d] |}
  end.
End Run.

Definition initial_state (description : string) : loop_state :=
  {| current_description := JStr description;
     final_image_path := None;
     history := [] |}.

(** Phase 1, linear planning: retriever, planner, stylist, and the
    planning record.  [candidates] is what reference loading returned
    (the empty list without a reference index). *)
Definition planning (source_context caption : string)
    (candidates : list example) (mode run_dir : string) : M string :=
  examples ← retrieve source_context caption candidates
               NUM_RETRIEVAL_EXAMPLES mode;
  description ← plan source_context caption examples mode;
  description ← style description source_context caption mode;
  _ ← write_file (path_join run_dir "planning.json")
        (FJson (JObj [("retrieved_examples",
                       JArr (map (λ e, JStr (id e)) examples));
                      ("initial_description", JStr description)]));
  mret description.

Definition final_output (run_dir : string) : string :=
  path_join run_dir "final_output.png".

Definition generate (source_context caption : string)
    (candidates : list example) (mode : string) (iterations : Z)
    (output_dir : string) (raw_data : json) : M string :=
  let run_dir := path_join output_dir (run_id E) in
  description ← planning source_context caption candidates mode run_dir;
  (* Phase 2, iterative refinement *)
  st ← refine source_context caption mode run_dir raw_data
         (Z.to_nat iterations) 0 (initial_state description);
  _ ← copy2 (final_image_path st) (final_output run_dir);
  mret (final_output run_dir).

End Pipeline.

(** ** More of the code: the planner's prompt and reference loading *)

(** [sep.join(lines)] *)
Fixpoint str_join (sep : string) (lines : list string) : string :=
  match lines with
  | [] => EmptyString
  | [l] => l
  | l :: rest => l +:+ sep +:+ str_join sep rest
  end.

(** [ex.get("image_path") and Path(ex["image_path"]).exists()] *)
Definition has_image (files : gmap string file) (ex : example) : bool :=
  negb (String.length (image_path ex) =? 0)
  && bool_decide (is_Some (files !! image_path ex)).

Definition image_ref (img_index : nat) : string :=
  nl +:+ "**Diagram**: [See reference image " +:+ pretty img_index
     +:+ " above]".

Definition example_line (i : nat) (ex : example) (ref : string) : string :=
  "### Example " +:+ pretty i +:+ nl
  +:+ "**Caption**: " +:+ caption ex +:+ nl
  +:+ "**Source Context**: " +:+ PyStr.slice (source_context ex) 0 500
  +:+ ref +:+ nl.

(** The loop of [plan] over [enumerate(examples, 1)], entered with the
    counters [i] and [img_index]; it returns [lines] and the final
    [img_index]. *)
Fixpoint example_lines (files : gmap string file) (examples : list example)
    (i img_index : nat) : list string * nat :=
  match examples with
  | [] => ([], img_index)
  | ex :: rest =>
      let img_index' := if has_image files ex then S img_index else img_index in
      let ref := if has_image files ex then image_ref img_index' else EmptyString in
      let '(lines, final) := example_lines files rest (S i) img_index' in
      (example_line i ex ref :: lines, final)
  end.

(** [examples_text], as [plan] puts it into the prompt. *)
Definition examples_text (files : gmap string file) (examples : list example)
  : string :=
  match examples with
  | [] => "(No reference examples available. Generate based on source context alone.)"
  | _ :: _ => str_join nl (example_lines files examples 1 0).1
  end.

(** [example_images], as [plan] passes them with the prompt: an image
    that exists but fails to open is skipped with a warning. *)
Definition example_images (files : gmap string file) (examples : list example)
  : list image :=
  omap (λ ex,
    if has_image files ex then
      match files !! image_path ex with
      | Some (FImage im) => Some im
      | _ => None
      end
    else None) examples.

(** What reference loading may raise, and its results. *)
Inductive load_exn :=
| KeyError (key : string)
| LoadAttributeError
| LoadTypeError.

Inductive loaded (A : Type) :=
| Loaded (a : A)
| LoadRaise (e : load_exn).
Arguments Loaded {A} a.
Arguments LoadRaise {A} e.

Section References.
(** [Path(p).is_absolute()] and [str(Path(dir) / p)], as [pathlib] of the
    platform defines them. *)
Variable is_absolute : string → bool.
Variable joinpath : string → string → string.

(** [item[k]] on the members of a [dict] *)
Definition item_index (members : list (string * json)) (k : string)
  : loaded json :=
  match Py.assoc k members with
  | Some v => Loaded v
  | None => LoadRaise (KeyError k)
  end.

(** [if image_path and not Path(image_path).is_absolute():
       image_path = str(ref_path / image_path)] *)
Definition resolve_image_path (reference_dir : string) (image_path : json)
  : loaded json :=
  if Py.truthy image_path then
    match image_path with
    | JStr p =>
        Loaded (JStr (if is_absolute p then p else joinpath reference_dir p))
    | _ => LoadRaise LoadTypeError
    end
  else Loaded image_path.

(** The body of the loop of [load_references]: the record appended for
    one item of the index. *)
Definition load_example (reference_dir : string) (item : json) : loaded json :=
  match item with
  | JObj members =>
      match resolve_image_path reference_dir
              (default (JStr EmptyString) (Py.assoc "image_path" members)) with
      | LoadRaise e => LoadRaise e
      | Loaded image_path =>
          match item_index members "id" with
          | LoadRaise e => LoadRaise e
          | Loaded i =>
              match item_index members "source_context" with
              | LoadRaise e => LoadRaise e
              | Loaded sc =>
                  match item_index members "caption" with
                  | LoadRaise e => LoadRaise e
                  | Loaded cap =>
                      Loaded (JObj [("id", i); ("source_context", sc);
                                    ("caption", cap);
                                    ("image_path", image_path);
                                    ("category",
                                     default JNull
                                       (Py.assoc "category" members))])
                  end
              end
          end
      end
  | _ => LoadRaise LoadAttributeError
  end.

Fixpoint load_examples (reference_dir : string) (items : list json)
  : loaded (list json) :=
  match items with
  | [] => Loaded []
  | item :: rest =>
      match load_example reference_dir item with
      | LoadRaise e => LoadRaise e
      | Loaded r =>
          match load_examples reference_dir rest with
          | LoadRaise e => LoadRaise e
          | Loaded rs => Loaded (r :: rs)
          end
      end
  end.

(** [load_references(reference_dir)], given what [index.json] decodes to
    ([None]: there is no such file). *)
Definition load_references (reference_dir : string) (index : option json)
  : loaded (list json) :=
  match index with
  | None => Loaded []
  | Some (JObj members) =>
      match Py.iter (default (JArr []) (Py.assoc "examples" members)) with
      | Ok items => load_examples reference_dir items
      | Raise _ => LoadRaise LoadTypeError
      end
  | Some _ => LoadRaise LoadAttributeError
  end.

End References.

(** ** Vocabulary of the properties *)

(** The world after one more text call to the gateway. *)
Definition after_vlm_call (w : world) : world :=
  {| fs := fs w; vlm_calls := S (vlm_calls w);
     image_calls := image_calls w; child_runs := child_runs w |}.

(** What the membership test finds for one listed item. *)
Definition lookup_listed (m : gmap string example) (eid : json) : option example :=
  match eid with
  | JStr k => m !! k
  | _ => None
  end.

(** The listed items that are ids of the pool, in listing order. *)
Definition known_ids (candidates : list example) (eids : list json)
  : list string :=
  omap (λ eid,
    match eid with
    | JStr k => if decide (k ∈ id <$> candidates) then Some k else None
    | _ => None
    end) eids.


(** The child's captured output is text. *)
Definition decodes (r : child_result) : Prop :=
  match r with
  | Undecodable _ _ => False
  | _ => True
  end.

(** How [_execute_plot_code] ends for each end of the child. *)
Definition child_outcome (r : child_result) (output_path : string)
  : outcome bool :=
  match r with
  | Completed returncode files =>
      Ok (if negb (returncode =? 0)%Z then false
          else bool_decide (is_Some (files !! output_path)))
  | TimeoutExpired _ => Ok false
  | Undecodable _ _ => Raise UnicodeDecodeError
  end.

(** The files the child of the next run leaves behind. *)
Definition child_files (r : child_result) : gmap string file :=
  match r with
  | Completed _ files => files
  | TimeoutExpired files => files
  | Undecodable _ files => files
  end.


(** The critic listed at least one suggestion. *)
Definition has_suggestions (c : critique_result) : Prop :=
  ∃ n, Py.len (critic_suggestions c) = Ok n ∧ 0 < n.

Definition suggestions_empty (c : critique_result) : Prop :=
  Py.len (critic_suggestions c) = Ok 0.

(** The revised description is present: neither null nor empty. *)
Definition revision_present (c : critique_result) : Prop :=
  Py.truthy (revised_description c) = true.

(** The test of the loop for going on with a revised description. *)
Definition revision_taken (c : critique_result) : Prop :=
  has_suggestions c ∧ revision_present c.

(** [run_of n i cur h fin]: with [n] iterations left, the loop variable at
    [i] and the description [cur], the loop writes the records [h] and
    ends with the description [fin]. *)
Inductive run_of : nat → nat → json → list iter_data → json → Prop :=
| run_exhausted i cur : run_of 0 i cur [] cur
| run_break n i cur c :
    (∃ k, Py.len (critic_suggestions c) = Ok k) →
    ¬ revision_taken c →
    run_of (S n) i cur
      [{| iteration := i + 1; description := cur; crit := c |}] cur
| run_continue n i cur c rest fin :
    revision_taken c →
    run_of n (S i) (revised_description c) rest fin →
    run_of (S n) i cur
      ({| iteration := i + 1; description := cur; crit := c |} :: rest) fin.

(** The number of renders attempted so far, in either mode. *)
Definition renders (w : world) : nat := image_calls w + child_runs w.

(** [costs k m]: running [m] attempts at most [k] renders, however it
    ends. *)
Definition costs {A} (k : nat) (m : M A) : Prop :=
  ∀ w o w', m w = (o, w') → renders w' ≤ renders w + k.

Fixpoint last_char (s : string) : option ascii :=
  match s with
  | EmptyString => None
  | String c s' =>
      match last_char s' with
      | None => Some c
      | Some c' => Some c'
      end
  end.

(** ** Concrete runs

    The environments and inputs on which the properties are exercised.
    A response is written with ['] where the model writes a double
    quote. *)

Module Scenario.

Fixpoint requote (s : string) : string :=
  match s with
  | EmptyString => EmptyString
  | String c s' =>
      String (if Ascii.eqb c "'" then PyStr.dquote else c) (requote s')
  end.

Definition w0 : world :=
  {| fs := ∅; vlm_calls := 0; image_calls := 0; child_runs := 0 |}.

Definition picture : image :=
  {| width := 1792; height := 1024; content := Raster "pixels" |}.

Definition ex (k : string) : example :=
  {| id := k; source_context := "methodology of " +:+ k;
     caption := "overview"; image_path := ""; category := None |}.

Definition pool3 : list example := [ex "a"; ex "b"; ex "c"].

Definition pool5 : list example := [ex "a"; ex "b"; ex "c"; ex "d"; ex "e"].

(** The gateway answers with [replies], in order, then gives up; the
    image service always returns [picture]; every child times out. *)
Definition env (replies : list string) : Env :=
  {| json_loads := Json.loads;
     vlm_reply := λ n, replies !! n;
     image_reply := λ _, Some picture;
     child_run := λ _ _ files, TimeoutExpired files;
     re_sub_output_path := λ code, code;
     run_id := "run_1" |}.

(** As [env], but every child exits with code 1 after writing bytes
    that are not valid text to its standard error. *)
Definition env_undecodable (replies : list string) : Env :=
  {| json_loads := Json.loads;
     vlm_reply := λ n, replies !! n;
     image_reply := λ _, Some picture;
     child_run := λ _ _ files, Undecodable 1 files;
     re_sub_output_path := λ code, code;
     run_id := "run_1" |}.

Definition listing : string := requote "{'selected_ids': ['c', 'zzz', 'a', 'b']}".

Definition other_key : string := requote "{'ids': ['c']}".

Definition revise : string :=
  requote "{'critic_suggestions': ['fix the arrows'], 'revised_description': 'd1'}".

Definition suggest_only : string :=
  requote "{'critic_suggestions': ['fix the arrows'], 'revised_description': null}".

Definition no_suggestions_key : string := requote "{'revised_description': 'd1'}".

Definition closed_block : string :=
  "```python" +:+ nl +:+ "plt.plot(xs)" +:+ nl +:+ "```" +:+ nl.

Definition bare_block : string :=
  "Code:" +:+ nl +:+ "```" +:+ nl +:+ "plt.plot(xs)" +:+ nl +:+ "```".

Definition unclosed_block : string := "```python" +:+ nl +:+ "plt.plot(xs)".

(** A world in which the artifact of iteration 1 has been rendered. *)
Definition w_rendered : world :=
  {| fs := {[ "outputs/run_1/iter_1.png" := FImage picture ]};
     vlm_calls := 0; image_calls := 1; child_runs := 0 |}.

End Scenario.

(** ** Vocabulary of the further properties *)

Definition is_object (v : json) : bool :=
  match v with JObj _ => true | _ => false end.

(** [within t i c P w w']: from [w] to [w'] at most [t] text calls, [i]
    image calls and [c] child runs were made, no call count went down,
    and only files at paths satisfying [P] were touched. *)
Definition within (t i c : nat) (P : string → Prop) (w w' : world) : Prop :=
  vlm_calls w ≤ vlm_calls w' ≤ vlm_calls w + t
  ∧ image_calls w ≤ image_calls w' ≤ image_calls w + i
  ∧ child_runs w ≤ child_runs w' ≤ child_runs w + c
  ∧ ∀ p, ¬ P p → fs w' !! p = fs w !! p.

(** [effects t i c P m]: however [m] ends, it stays [within t i c P]. *)
Definition effects {A} (t i c : nat) (P : string → Prop) (m : M A) : Prop :=
  ∀ w o w', m w = (o, w') → within t i c P w w'.

Definition nowhere : string → Prop := λ _, False.

Definition anywhere : string → Prop := λ _, True.

(** The paths directly inside the directory [dir]. *)
Definition inside (dir : string) : string → Prop :=
  λ p, ∃ name, p = path_join dir name.

(** [if output_path is None: output_path = f"diagram_iter_{iteration}.png"] *)
Definition diagram_output_path (output_path : option string) (iteration : nat)
  : string :=
  match output_path with
  | Some p => p
  | None => "diagram_iter_" +:+ pretty iteration +:+ ".png"
  end.

(** The world after one more call to the image service. *)
Definition after_image_call (w : world) : world :=
  {| fs := fs w; vlm_calls := vlm_calls w;
     image_calls := S (image_calls w); child_runs := child_runs w |}.

(** The artifact and details paths of the iterations after the [i]-th. *)
Definition iteration_files (run_dir : string) (i : nat) : string → Prop :=
  λ q, ∃ m, i < m ∧ (q = iter_png run_dir m ∨ q = iter_details run_dir m).

Definition planning_json (run_dir : string) : string :=
  path_join run_dir "planning.json".

(** [record_of is_absolute joinpath dir item r]: [r] is the record that
    reference loading makes of the index item [item]: its id, context and
    caption as they are, its category or [None], and its image path,
    resolved under [dir] when it is a non-empty relative path. *)
Definition record_of (is_absolute : string → bool)
    (joinpath : string → string → string) (dir : string) (item r : json)
  : Prop :=
  ∃ members i sc cap ip,
    item = JObj members
    ∧ Py.assoc "id" members = Some i
    ∧ Py.assoc "source_context" members = Some sc
    ∧ Py.assoc "caption" members = Some cap
    ∧ r = JObj [("id", i); ("source_context", sc); ("caption", cap);
                ("image_path", ip);
                ("category", default JNull (Py.assoc "category" members))]
    ∧ let v := default (JStr EmptyString) (Py.assoc "image_path" members) in
      (Py.truthy v = false ∧ ip = v)
      ∨ (∃ p, v = JStr p ∧ p ≠ EmptyString
              ∧ ip = JStr (if is_absolute p then p else joinpath dir p)).

(** ** More concrete runs *)

Module MoreScenarios.
Import Scenario.

(** As [env], with an image service that always gives up. *)
Definition env_down (replies : list string) : Env :=
  {| json_loads := Json.loads;
     vlm_reply := λ n, replies !! n;
     image_reply := λ _, None;
     child_run := λ _ _ files, TimeoutExpired files;
     re_sub_output_path := λ code, code;
     run_id := "run_1" |}.

Definition null_suggestions : string := requote "{'critic_suggestions': null}".

Definition numeric_revision : string :=
  requote "{'critic_suggestions': ['fix the axis'], 'revised_description': 5}".

Definition raw : json := JObj [("accuracy", JArr [JInt 1; JInt 2])].

(** POSIX paths. *)
Definition is_absolute (p : string) : bool := String.prefix "/" p.

Definition joinpath (dir p : string) : string := dir +:+ "/" +:+ p.

Definition good_item : json :=
  JObj [("id", JStr "ref_1"); ("source_context", JStr "ctx");
        ("caption", JStr "cap"); ("image_path", JStr "images/ref_1.png")].

Definition item_without_id : json :=
  JObj [("source_context", JStr "ctx"); ("caption", JStr "cap")].

End MoreScenarios.

(** * Properties *)

(** ** Facts about Python strings *)

Module PyStrFacts.
Import PyStr.

Lemma sapp_nil_l s : "" +:+ s = s.
Proof. reflexivity. Qed.

Lemma sapp_cons c s t : String c s +:+ t = String c (s +:+ t).
Proof. reflexivity. Qed.

Lemma slength_app s t :
  String.length (s +:+ t) = String.length s + String.length t.
Proof. induction s as [|c s IH]; [done|]. rewrite sapp_cons. simpl. by rewrite IH. Qed.

Lemma sapp_assoc s t u : (s +:+ t) +:+ u = s +:+ t +:+ u.
Proof. induction s as [|c s IH]; [done|]. rewrite !sapp_cons. by rewrite IH. Qed.

Lemma length_zero s : String.length s = 0 → s = "".
Proof. by destruct s. Qed.

Lemma prefix_app p t : String.prefix p (p +:+ t) = true.
Proof.
  induction p as [|c p IH]; [by destruct t|].
  rewrite sapp_cons. simpl. by destruct (ascii_dec c c).
Qed.

Lemma prefix_inv p s : String.prefix p s = true → ∃ t, s = p +:+ t.
Proof.
  revert s. induction p as [|c p IH]; intros s H.
  - by exists s.
  - destruct s as [|c' s]; [done|]. simpl in H.
    destruct (ascii_dec c c') as [->|]; [|done].
    destruct (IH _ H) as [t ->]. by exists t.
Qed.

Lemma sdrop_app pre s : drop (String.length pre) (pre +:+ s) = s.
Proof. induction pre as [|c pre IH]; [by destruct s|]. by rewrite sapp_cons. Qed.

Lemma sdrop_0 s : drop 0 s = s.
Proof. by destruct s. Qed.

Lemma substring_0_app body post :
  String.substring 0 (String.length body) (body +:+ post) = body.
Proof.
  induction body as [|c body IH]; [by destruct post|].
  rewrite sapp_cons. simpl. by rewrite IH.
Qed.

Lemma substring_app pre body post :
  String.substring (String.length pre) (String.length body)
    (pre +:+ body +:+ post) = body.
Proof.
  induction pre as [|c pre IH].
  - rewrite sapp_nil_l. apply substring_0_app.
  - by rewrite sapp_cons.
Qed.

Lemma occurs_at_0 sub s : occurs_at sub s 0 ↔ String.prefix sub s = true.
Proof.
  split.
  - intros (pre & post & -> & Hl). apply length_zero in Hl as ->.
    rewrite sapp_nil_l. apply prefix_app.
  - intros [t ->]%prefix_inv. by exists "", t.
Qed.

Lemma occurs_at_S sub c s k :
  occurs_at sub (String c s) (S k) ↔ occurs_at sub s k.
Proof.
  split.
  - intros (pre & post & Heq & Hl). destruct pre as [|c' pre]; [done|].
    rewrite sapp_cons in Heq. injection Heq as -> ->.
    exists pre, post. split; [done|]. simpl in Hl. lia.
  - intros (pre & post & -> & Hl). exists (String c pre), post.
    split; [done|]. simpl. by rewrite Hl.
Qed.

Lemma occurs_at_length sub s k :
  occurs_at sub s k → k + String.length sub ≤ String.length s.
Proof. intros (pre & post & -> & <-). rewrite !slength_app. lia. Qed.

Lemma find_nil sub :
  find sub "" = if String.prefix sub "" then Some 0 else None.
Proof. reflexivity. Qed.

Lemma find_cons sub c s :
  find sub (String c s)
  = if String.prefix sub (String c s) then Some 0 else S <$> find sub s.
Proof. reflexivity. Qed.

Lemma find_Some sub s k : find sub s = Some k → first_at sub s k.
Proof.
  revert k. induction s as [|c s IH]; intros k;
    [rewrite find_nil|rewrite find_cons].
  - destruct (String.prefix sub "") eqn:Hp; [|done].
    intros [= <-]. split; [by apply occurs_at_0|lia].
  - destruct (String.prefix sub (String c s)) eqn:Hp.
    + intros [= <-]. split; [by apply occurs_at_0|lia].
    + destruct (find sub s) as [k'|] eqn:Hf; [|done].
      intros [= <-]. destruct (IH k' eq_refl) as [Ho Hmin]. split.
      * by apply occurs_at_S.
      * intros [|j] Hj Hoj.
        -- apply occurs_at_0 in Hoj. congruence.
        -- apply occurs_at_S in Hoj. apply (Hmin j); [lia|done].
Qed.

Lemma find_None sub s : find sub s = None → absent sub s.
Proof.
  induction s as [|c s IH]; [rewrite find_nil|rewrite find_cons].
  - destruct (String.prefix sub "") eqn:Hp; [done|].
    intros _ k Ho. pose proof (occurs_at_length _ _ _ Ho) as Hl. simpl in Hl.
    assert (k = 0) as -> by lia. apply occurs_at_0 in Ho. congruence.
  - destruct (String.prefix sub (String c s)) eqn:Hp; [done|].
    destruct (find sub s) as [k'|] eqn:Hf; [done|].
    intros _ [|k] Ho.
    + apply occurs_at_0 in Ho. congruence.
    + apply occurs_at_S in Ho. by apply (IH eq_refl k).
Qed.

Lemma first_at_unique sub s j k : first_at sub s j → first_at sub s k → j = k.
Proof.
  intros [Hj Hminj] [Hk Hmink].
  destruct (Nat.lt_trichotomy j k) as [?|[?|?]]; [|done|].
  - by destruct (Hmink j).
  - by destruct (Hminj k).
Qed.

Lemma first_at_find sub s k : first_at sub s k → find sub s = Some k.
Proof.
  intros Hk. destruct (find sub s) as [j|] eqn:Hf.
  - f_equal. eapply first_at_unique; [by apply find_Some|done].
  - destruct Hk as [Hk _]. by destruct (find_None _ _ Hf k).
Qed.

Lemma absent_find sub s : absent sub s → find sub s = None.
Proof.
  intros Ha. destruct (find sub s) as [j|] eqn:Hf; [|done].
  apply find_Some in Hf as [Hj _]. by destruct (Ha j).
Qed.

Lemma occurs_at_drop sub s n k :
  n ≤ String.length s → occurs_at sub (drop n s) k ↔ occurs_at sub s (n + k).
Proof.
  revert s. induction n as [|n IH]; intros s Hn.
  - by rewrite sdrop_0.
  - destruct s as [|c s]; [simpl in Hn; lia|].
    simpl in Hn. change (S n + k) with (S (n + k)).
    rewrite occurs_at_S. simpl. apply IH. lia.
Qed.

Lemma find_from_0 sub s : find_from sub s 0 = find sub s.
Proof.
  unfold find_from. rewrite sdrop_0.
  destruct (String.length s <? 0) eqn:Hl; [apply Nat.ltb_lt in Hl; lia|].
  by destruct (find sub s).
Qed.

(** Once no occurrence starts at or after [n], none starts after a
    later offset either. *)
Lemma find_from_None_mono sub s n n' :
  n ≤ n' → find_from sub s n = None → find_from sub s n' = None.
Proof.
  intros Hle. unfold find_from.
  destruct (String.length s <? n') eqn:Hl'; [done|].
  apply Nat.ltb_ge in Hl'.
  destruct (String.length s <? n) eqn:Hl; [apply Nat.ltb_lt in Hl; lia|].
  destruct (find sub (drop n s)) eqn:Hf; [done|]. intros _.
  rewrite absent_find; [done|].
  intros k Ho. apply occurs_at_drop in Ho; [|done].
  apply (find_None _ _ Hf (n' - n + k)).
  apply occurs_at_drop; [lia|]. by replace (n + (n' - n + k)) with (n' + k) by lia.
Qed.

End PyStrFacts.

(** ** Code extraction *)

Section ExtractCode.
Import PyStr PyStrFacts.

Lemma contains_true sub s k : first_at sub s k → contains sub s = true.
Proof. intros H. unfold contains. by rewrite (first_at_find _ _ _ H). Qed.

Lemma contains_false sub s : absent sub s → contains sub s = false.
Proof. intros H. unfold contains. by rewrite (absent_find _ _ H). Qed.

Lemma index_first s sub k : first_at sub s k → index s sub 0 = Ok k.
Proof.
  intros H. unfold index. by rewrite find_from_0, (first_at_find _ _ _ H).
Qed.

(** Searching from the end of a prefix [pre] is searching the rest. *)
Lemma index_after s pre rest sub k :
  s = pre +:+ rest → first_at sub rest k →
  index s sub (String.length pre) = Ok (String.length pre + k).
Proof.
  intros -> H. unfold index, find_from.
  rewrite slength_app, sdrop_app, (first_at_find _ _ _ H).
  by destruct (_ <? _) eqn:Hl; [apply Nat.ltb_lt in Hl; lia|].
Qed.

Lemma index_absent_after s sub n :
  n ≤ String.length s → absent sub (drop n s) →
  index s sub n = Raise ValueError.
Proof.
  intros Hn H. unfold index, find_from. rewrite (absent_find _ _ H).
  by destruct (_ <? _).
Qed.

Lemma index_raise_mono s sub n n' :
  n ≤ n' → index s sub n = Raise ValueError → index s sub n' = Raise ValueError.
Proof.
  intros Hle. unfold index.
  destruct (find_from sub s n) eqn:Hf; [done|]. intros _.
  by rewrite (find_from_None_mono _ _ _ _ Hle Hf).
Qed.

Lemma python_fence_occurs s k :
  occurs_at python_fence s k → occurs_at fence s k.
Proof.
  intros (pre & post & -> & Hl). exists pre, ("python" +:+ post).
  split; [|done]. unfold python_fence, fence.
  by change "```python" with ("```" +:+ "python"); rewrite sapp_assoc.
Qed.

(** The text between an opening marker [open] found at the end of [pre]
    and the first closing fence after it. *)
Lemma extract_between r opening pre body post :
  r = pre +:+ opening +:+ body +:+ fence +:+ post →
  first_at fence (body +:+ fence +:+ post) (String.length body) →
  let start := String.length pre + String.length opening in
  index r fence start = Ok (start + String.length body) ∧
  slice r start (start + String.length body) = body.
Proof.
  intros Hr Hclose start. split.
  - unfold start. rewrite <- slength_app.
    apply index_after with (rest := body +:+ fence +:+ post); [|done].
    by rewrite sapp_assoc.
  - unfold slice, start.
    replace (_ + _ + _ - _) with (String.length body) by lia.
    rewrite Hr, <- slength_app, <- (sapp_assoc pre opening).
    apply substring_app.
Qed.

(** [C8] (as amended).  Code extraction returns, with leading and
    trailing whitespace stripped: the text between the first
    [```python] marker and the first [```] after it, when the response
    has such a marker and it is closed; otherwise the text between the
    first [```] and the next [```], when the response has a closed bare
    fence; and the whole response when it contains no [```] at all. *)
Theorem extract_code_spec (r pre body post : string) :
  (r = pre +:+ python_fence +:+ body +:+ fence +:+ post →
   first_at python_fence r (String.length pre) →
   first_at fence (body +:+ fence +:+ post) (String.length body) →
   _extract_code r = Ok (strip body))
  ∧ (absent python_fence r →
     r = pre +:+ fence +:+ body +:+ fence +:+ post →
     first_at fence r (String.length pre) →
     first_at fence (body +:+ fence +:+ post) (String.length body) →
     _extract_code r = Ok (strip body))
  ∧ (absent fence r → _extract_code r = Ok (strip r)).
Proof.
  split; [|split].
  - intros Hr Hopen Hclose. unfold _extract_code.
    rewrite (contains_true _ _ _ Hopen), (index_first _ _ _ Hopen).
    destruct (extract_between r python_fence pre body post Hr Hclose)
      as [-> ->]. done.
  - intros Hnopy Hr Hopen Hclose. unfold _extract_code.
    rewrite (contains_false _ _ Hnopy), (contains_true _ _ _ Hopen),
      (index_first _ _ _ Hopen).
    destruct (extract_between r fence pre body post Hr Hclose) as [H1 H2].
    change (String.length fence) with 3 in H1, H2. by rewrite H1, H2.
  - intros Hno. unfold _extract_code.
    assert (absent python_fence r) as Hnopy.
    { intros k Hk. by apply (Hno k), python_fence_occurs. }
    by rewrite (contains_false _ _ Hnopy), (contains_false _ _ Hno).
Qed.

(** An opening fence that is never closed makes [str.index] raise. *)
Lemma extract_code_unclosed r k :
  first_at fence r k → absent fence (drop (k + 3) r) →
  _extract_code r = Raise ValueError.
Proof.
  intros Hopen Hnone.
  assert (index r fence (k + 3) = Raise ValueError) as Hraise.
  { apply index_absent_after; [|done].
    destruct Hopen as [Hk _]. apply occurs_at_length in Hk. by simpl in Hk. }
  unfold _extract_code.
  destruct (find python_fence r) as [j|] eqn:Hpy.
  - apply find_Some in Hpy.
    rewrite (contains_true _ _ _ Hpy), (index_first _ _ _ Hpy).
    assert (k ≤ j) as Hkj.
    { destruct (decide (k ≤ j)) as [|Hn]; [done|].
      destruct Hopen as [_ Hmin]. destruct Hpy as [Hj _].
      destruct (Hmin j); [lia|by apply python_fence_occurs]. }
    change (String.length python_fence) with 9.
    by rewrite (index_raise_mono r fence (k + 3) (j + 9)) by (done || lia).
  - apply find_None in Hpy.
    rewrite (contains_false _ _ Hpy), (contains_true _ _ _ Hopen),
      (index_first _ _ _ Hopen).
    by rewrite Hraise.
Qed.

End ExtractCode.

(** ** Reasoning in the monad *)

Section MonadFacts.
Context {A B : Type}.
Implicit Types (m : M A) (f : A → M B).

Lemma bind_Ok m f w a w1 : m w = (Ok a, w1) → (m ≫= f) w = f a w1.
Proof. intros H. unfold mbind, M_bind. by rewrite H. Qed.

Lemma bind_Raise m f w e w1 :
  m w = (Raise e, w1) → (m ≫= f) w = (Raise e, w1).
Proof. intros H. unfold mbind, M_bind. by rewrite H. Qed.

Lemma bind_inv_Ok m f w b w2 :
  (m ≫= f) w = (Ok b, w2) →
  ∃ a w1, m w = (Ok a, w1) ∧ f a w1 = (Ok b, w2).
Proof.
  unfold mbind, M_bind. destruct (m w) as [[a|e] w1]; [|done].
  intros H. by exists a, w1.
Qed.
End MonadFacts.

Lemma lift_inv_Ok {A} (o : outcome A) w a w' :
  lift o w = (Ok a, w') → o = Ok a ∧ w' = w.
Proof. unfold lift. by intros [= -> ->]. Qed.

Lemma call_vlm_Some E w text :
  vlm_reply E (vlm_calls w) = Some text →
  call_vlm E w = (Ok text, after_vlm_call w).
Proof. intros H. unfold call_vlm. by rewrite H. Qed.

Lemma call_vlm_inv E w text w' :
  call_vlm E w = (Ok text, w') →
  vlm_reply E (vlm_calls w) = Some text ∧ w' = after_vlm_call w.
Proof.
  unfold call_vlm. destruct (vlm_reply E (vlm_calls w)); [|done].
  by intros [= -> <-].
Qed.

(** ** Retrieval *)

Section Retrieval.
Context (E : Env).
Implicit Types (candidates : list example) (k : string).

Lemma foldl_insert_lookup candidates (m0 : gmap string example) k c :
  foldl (λ m c, <[id c := c]> m) m0 candidates !! k = Some c →
  (c ∈ candidates ∧ id c = k) ∨ m0 !! k = Some c.
Proof.
  revert m0. induction candidates as [|c0 l IH]; intros m0 H; simpl in H.
  - by right.
  - destruct (IH _ H) as [[Hin Hid]|Hm].
    + left. split; [by right|done].
    + destruct (decide (id c0 = k)) as [<-|Hne].
      * rewrite lookup_insert_eq in Hm. injection Hm as ->.
        left. split; [by left|done].
      * rewrite lookup_insert_ne in Hm by done. by right.
Qed.

Lemma foldl_insert_is_Some candidates (m0 : gmap string example) k :
  k ∈ id <$> candidates ∨ is_Some (m0 !! k) →
  is_Some (foldl (λ m c, <[id c := c]> m) m0 candidates !! k).
Proof.
  revert m0. induction candidates as [|c0 l IH]; intros m0 H; simpl.
  - destruct H as [H|H]; [|done]. by apply elem_of_nil in H.
  - apply IH. destruct H as [H|H].
    + rewrite fmap_cons in H. apply elem_of_cons in H as [->|H]; [|by left].
      right. by rewrite lookup_insert_eq.
    + right. destruct (decide (id c0 = k)) as [<-|Hne].
      * by rewrite lookup_insert_eq.
      * by rewrite lookup_insert_ne.
Qed.

Lemma id_to_example_Some candidates k c :
  id_to_example candidates !! k = Some c → c ∈ candidates ∧ id c = k.
Proof.
  intros H. destruct (foldl_insert_lookup _ _ _ _ H) as [?|H0]; [done|].
  by rewrite lookup_empty in H0.
Qed.

Lemma id_to_example_None candidates k :
  id_to_example candidates !! k = None → k ∉ id <$> candidates.
Proof.
  intros H Hin.
  destruct (foldl_insert_is_Some candidates ∅ k (or_introl Hin)) as [c Hc].
  unfold id_to_example in H. congruence.
Qed.

Lemma select_loop_elem (m : gmap string example) eids selected res :
  select_loop m eids selected = Ok res →
  ∀ e, e ∈ res → e ∈ selected ∨ ∃ k, m !! k = Some e.
Proof.
  revert selected. induction eids as [|eid eids IH]; intros selected H e He.
  - injection H as <-. by left.
  - simpl in H. destruct (Py.hashable eid); [|done].
    destruct eid as [| | | |k| |]; try by apply (IH _ H).
    destruct (m !! k) as [c|] eqn:Hk; [|by apply (IH _ H)].
    destruct (IH _ H e He) as [Hin|?]; [|by right].
    apply elem_of_app in Hin as [?|Hin]; [by left|].
    apply list_elem_of_singleton in Hin as ->. right. by exists k.
Qed.

Lemma select_loop_hashable (m : gmap string example) eids selected :
  Forall (λ eid, Py.hashable eid = true) eids →
  select_loop m eids selected = Ok (selected ++ omap (lookup_listed m) eids).
Proof.
  intros Hall. revert selected.
  induction Hall as [|eid eids Hh _ IH]; intros selected.
  - by rewrite app_nil_r.
  - simpl. rewrite Hh.
    destruct eid as [| | | |k| |]; simpl; try apply IH.
    destruct (m !! k) as [c|]; [|apply IH].
    by rewrite IH, <- app_assoc.
Qed.

Lemma listed_ids candidates eids :
  id <$> omap (lookup_listed (id_to_example candidates)) eids
  = known_ids candidates eids.
Proof.
  unfold known_ids. induction eids as [|eid eids IH]; [done|].
  destruct eid as [| | | |k| |];
    cbn [omap list_omap lookup_listed]; try apply IH.
  destruct (id_to_example candidates !! k) as [c|] eqn:Hk.
  - apply id_to_example_Some in Hk as [Hin Hid].
    rewrite decide_True.
    + by rewrite fmap_cons, IH, Hid.
    + rewrite <- Hid. by apply list_elem_of_fmap_2.
  - apply id_to_example_None in Hk. by rewrite decide_False.
Qed.

Lemma slice_to_nonneg {X} (l : list X) n :
  (0 ≤ n)%Z → Py.slice_to l n = take (Z.to_nat n) l.
Proof. intros H. unfold Py.slice_to. by rewrite (proj2 (Z.leb_le 0 n) H). Qed.

Lemma slice_to_elem {X} (l : list X) n x : x ∈ Py.slice_to l n → x ∈ l.
Proof.
  unfold Py.slice_to. destruct (0 <=? n)%Z; intros H;
    by apply (subseteq_take _ l) in H.
Qed.

Lemma slice_to_length {X} (l : list X) n :
  (0 ≤ n)%Z → (Z.of_nat (length (Py.slice_to l n)) ≤ n)%Z.
Proof. intros H. rewrite slice_to_nonneg, length_take by done. lia. Qed.

(** [C3].  A pool no larger than the cap, the empty pool included, is
    returned whole and in its order, and the gateway is not called: the
    world, with its count of model calls, is left as it was. *)
Theorem retrieve_passthrough source_context caption candidates num_examples
    mode (w : world) :
  (Z.of_nat (length candidates) ≤ num_examples)%Z →
  retrieve E source_context caption candidates num_examples mode w
  = (Ok candidates, w)
  ∧ vlm_calls
      (retrieve E source_context caption candidates num_examples mode w).2
    = vlm_calls w.
Proof.
  intros Hle. unfold retrieve. destruct candidates as [|c l]; [done|].
  by rewrite (proj2 (Z.leb_le _ _) Hle).
Qed.

Lemma retrieve_model_path source_context caption candidates num_examples
    mode w response :
  (0 ≤ num_examples < Z.of_nat (length candidates))%Z →
  vlm_reply E (vlm_calls w) = Some response →
  retrieve E source_context caption candidates num_examples mode w
  = match json_loads E response with
    | None => (Ok (Py.slice_to candidates num_examples), after_vlm_call w)
    | Some data =>
        (selected_ids ← lift (selected_ids_of data);
         eids ← lift (Py.iter selected_ids);
         selected ← lift (select_loop (id_to_example candidates) eids []);
         mret (Py.slice_to selected num_examples)) (after_vlm_call w)
    end.
Proof.
  intros [Hcap Hlt] Hreply. unfold retrieve.
  destruct candidates as [|c l]; [simpl in Hlt; lia|].
  rewrite (proj2 (Z.leb_gt _ _) Hlt).
  rewrite (bind_Ok _ _ _ _ _ (call_vlm_Some _ _ _ Hreply)).
  by destruct (json_loads E response).
Qed.

(** [C4].  With a cap that is a count ([0 <= cap]): whatever the model
    answers, a result that [retrieve] returns holds only examples of the
    pool (so only ids of the pool) and is no longer than the cap; and
    when the model lists items that can be looked up (strings, numbers,
    booleans, null), [retrieve] does not raise and the ids it returns
    are the listed ids known to the pool, in the order of the listing,
    cut at the cap: unknown ids are dropped. *)
Theorem retrieve_result source_context caption candidates num_examples
    mode w :
  (0 ≤ num_examples)%Z →
  (∀ res w',
     retrieve E source_context caption candidates num_examples mode w
     = (Ok res, w') →
     (∀ e, e ∈ res → e ∈ candidates ∧ id e ∈ id <$> candidates)
     ∧ (Z.of_nat (length res) ≤ num_examples)%Z)
  ∧ (∀ response data selected_ids eids,
       (num_examples < Z.of_nat (length candidates))%Z →
       vlm_reply E (vlm_calls w) = Some response →
       json_loads E response = Some data →
       selected_ids_of data = Ok selected_ids →
       Py.iter selected_ids = Ok eids →
       Forall (λ eid, Py.hashable eid = true) eids →
       ∃ res,
         retrieve E source_context caption candidates num_examples mode w
         = (Ok res, after_vlm_call w)
         ∧ id <$> res
           = take (Z.to_nat num_examples) (known_ids candidates eids)).
Proof.
  intros Hcap. split.
  - intros res w' Hret.
    assert (∀ e, e ∈ res → e ∈ candidates) as Hsub; last first.
    { split.
      - intros e He. split; [by apply Hsub|].
        by apply list_elem_of_fmap_2, Hsub.
      - revert Hret. unfold retrieve.
        destruct candidates as [|c l]; [intros [= <- _]; simpl; lia|].
        destruct (_ <=? _)%Z eqn:Hle.
        { intros [= <- _]. by apply Z.leb_le. }
        intros (response & w1 & _ & Hk)%bind_inv_Ok.
        destruct (json_loads E response) as [data|].
        + apply bind_inv_Ok in Hk as (? & ? & _ & Hk).
          apply bind_inv_Ok in Hk as (? & ? & _ & Hk).
          apply bind_inv_Ok in Hk as (? & ? & _ & Hk).
          injection Hk as <- _. by apply slice_to_length.
        + injection Hk as <- _. by apply slice_to_length. }
    revert Hret. unfold retrieve.
    destruct candidates as [|c l]; [by intros [= <- _]|].
    destruct (_ <=? _)%Z; [by intros [= <- _]|].
    intros (response & w1 & _ & Hk)%bind_inv_Ok.
    destruct (json_loads E response) as [data|].
    + apply bind_inv_Ok in Hk as (? & ? & _ & Hk).
      apply bind_inv_Ok in Hk as (eids & ? & _ & Hk).
      apply bind_inv_Ok in Hk as (selected & ? & Hsel & Hk).
      apply lift_inv_Ok in Hsel as [Hsel _].
      injection Hk as <- _. intros e He%slice_to_elem.
      destruct (select_loop_elem _ _ _ _ Hsel e He) as [Hnil|[k Hk]].
      * by apply elem_of_nil in Hnil.
      * by apply id_to_example_Some in Hk as [? _].
    + injection Hk as <- _. intros e He. by apply slice_to_elem in He.
  - intros response data selected_ids eids Hlt Hreply Hdata Hids Hiter Hhash.
    rewrite (retrieve_model_path _ _ _ _ _ _ _ (conj Hcap Hlt) Hreply), Hdata.
    unfold mbind, M_bind, lift, mret, M_ret.
    rewrite Hids. cbv beta iota. rewrite Hiter. cbv beta iota.
    rewrite (select_loop_hashable _ _ _ Hhash), app_nil_l.
    eexists. split; [done|].
    by rewrite slice_to_nonneg, fmap_take, listed_ids.
Qed.

(** [C2] (as amended).  For a pool larger than the cap: when the
    response fails to parse, [retrieve] returns the first [cap]
    candidates of the pool, in pool order; when it parses to an object
    that has none of the keys [selected_ids], [top_10_papers],
    [top_10_plots], [retrieve] returns the empty list. *)
Theorem retrieve_fallback source_context caption candidates num_examples
    mode w response :
  (0 ≤ num_examples < Z.of_nat (length candidates))%Z →
  vlm_reply E (vlm_calls w) = Some response →
  (json_loads E response = None →
   retrieve E source_context caption candidates num_examples mode w
   = (Ok (take (Z.to_nat num_examples) candidates), after_vlm_call w))
  ∧ (∀ members,
       json_loads E response = Some (JObj members) →
       Py.assoc "selected_ids" members = None →
       Py.assoc "top_10_papers" members = None →
       Py.assoc "top_10_plots" members = None →
       retrieve E source_context caption candidates num_examples mode w
       = (Ok [], after_vlm_call w)).
Proof.
  intros [Hcap Hlt] Hreply. split.
  - intros Hparse.
    rewrite (retrieve_model_path _ _ _ _ _ _ _ (conj Hcap Hlt) Hreply), Hparse.
    by rewrite slice_to_nonneg.
  - intros members Hparse H1 H2 H3.
    rewrite (retrieve_model_path _ _ _ _ _ _ _ (conj Hcap Hlt) Hreply), Hparse.
    unfold selected_ids_of, Py.get, bind_outcome. rewrite H1, H2, H3. simpl.
    unfold mbind, M_bind, lift, mret, M_ret. simpl.
    by rewrite slice_to_nonneg, take_nil.
Qed.

End Retrieval.

(** ** The plot renderer *)

Section PlotRenderer.
Context (E : Env).

Lemma execute_plot_code_eq code output_path w :
  let r := child_run E (child_runs w) (full_code E code output_path) (fs w) in
  _execute_plot_code E code output_path w
  = (child_outcome r output_path,
     {| fs := child_files r; vlm_calls := vlm_calls w;
        image_calls := image_calls w; child_runs := S (child_runs w) |}).
Proof.
  unfold _execute_plot_code, subprocess_run, mbind, M_bind.
  destruct (child_run E (child_runs w) (full_code E code output_path) (fs w))
    as [rc files|files|rc files]; simpl; [|done..].
  by destruct (negb (rc =? 0)%Z).
Qed.







(** [C5].  The plot renderer does not recover from every failed
    execution.  When the generated code was extracted and the child
    process ends, with whatever return code (a non-zero one included),
    having written output that is not valid text, the renderer raises
    [UnicodeDecodeError]: one child was run, the files are as the child
    left them, and no placeholder is written. *)
Theorem generate_plot_undecodable_output description raw_data output_path
    iteration w response code returncode files :
  (Py.truthy raw_data = true → iadd_text description = Ok tt) →
  vlm_reply E (vlm_calls w) = Some response →
  _extract_code response = Ok code →
  let p := plot_output_path output_path iteration in
  child_run E (child_runs w) (full_code E code p) (fs w)
  = Undecodable returncode files →
  ∃ w',
    _generate_plot E description raw_data output_path iteration w
    = (Raise UnicodeDecodeError, w')
    ∧ fs w' = files
    ∧ child_runs w' = S (child_runs w).
Proof.
  intros Hadd Hreply Hcode p Hchild.
  unfold _generate_plot.
  assert ((if Py.truthy raw_data then lift (iadd_text description)
           else mret tt) w = (Ok tt, w)) as H0.
  { destruct (Py.truthy raw_data); [|done]. by rewrite Hadd. }
  rewrite (bind_Ok _ _ _ _ _ H0).
  rewrite (bind_Ok _ _ _ _ _ (call_vlm_Some _ _ _ Hreply)).
  rewrite Hcode. unfold lift at 1. unfold mbind at 1, M_bind at 1.
  fold p. pose proof (execute_plot_code_eq code p
    {| fs := fs w; vlm_calls := S (vlm_calls w);
       image_calls := image_calls w; child_runs := child_runs w |}) as Hexec.
  simpl in Hexec. rewrite Hchild in Hexec. simpl in Hexec.
  rewrite (bind_Raise _ _ _ _ _ Hexec).
  by eexists.
Qed.

(** [C9].  A response whose first fence is never closed (no [```] from
    three characters after it on; in particular a response with a single
    [```]) makes [_extract_code] raise [ValueError], and the plot
    renderer raises with it: nothing is executed and no file, placeholder
    or other, is written. *)
Theorem generate_plot_unclosed_fence description raw_data output_path
    iteration w response k :
  vlm_reply E (vlm_calls w) = Some response →
  PyStr.first_at fence response k →
  PyStr.absent fence (PyStr.drop (k + 3) response) →
  _extract_code response = Raise ValueError
  ∧ ∃ w',
      _generate_plot E (JStr description) raw_data output_path iteration w
      = (Raise ValueError, w')
      ∧ fs w' = fs w ∧ child_runs w' = child_runs w.
Proof.
  intros Hreply Hopen Hnone.
  pose proof (extract_code_unclosed _ _ Hopen Hnone) as Hraise.
  split; [done|]. unfold _generate_plot.
  assert ((if Py.truthy raw_data then lift (iadd_text (JStr description))
           else mret tt) w = (Ok tt, w)) as H0.
  { by destruct (Py.truthy raw_data). }
  rewrite (bind_Ok _ _ _ _ _ H0).
  rewrite (bind_Ok _ _ _ _ _ (call_vlm_Some _ _ _ Hreply)).
  rewrite Hraise. by eexists.
Qed.

End PlotRenderer.

(** ** The critic *)

Section Critic.
Context (E : Env).

(** [C7].  When the critic's response is not parseable as JSON,
    [critique] returns empty suggestions and a null revised description;
    when it parses to an object without the key [critic_suggestions], the
    suggestions returned are empty. *)
Theorem critique_malformed image_path description source_context caption
    mode w im response :
  fs w !! image_path = Some (FImage im) →
  vlm_reply E (vlm_calls w) = Some response →
  (json_loads E response = None →
   critique E image_path description source_context caption mode w
   = (Ok {| critic_suggestions := JArr []; revised_description := JNull |},
      after_vlm_call w))
  ∧ (∀ members,
       json_loads E response = Some (JObj members) →
       Py.assoc "critic_suggestions" members = None →
       critique E image_path description source_context caption mode w
       = (Ok {| critic_suggestions := JArr [];
                revised_description :=
                  default JNull (Py.assoc "revised_description" members) |},
          after_vlm_call w)).
Proof.
  intros Himg Hreply.
  assert (image_open image_path w = (Ok im, w)) as Hopen.
  { unfold image_open, get_world, mbind, M_bind. by rewrite Himg. }
  split.
  - intros Hparse. unfold critique.
    rewrite (bind_Ok _ _ _ _ _ Hopen).
    rewrite (bind_Ok _ _ _ _ _ (call_vlm_Some _ _ _ Hreply)).
    by rewrite Hparse.
  - intros members Hparse Hkey. unfold critique.
    rewrite (bind_Ok _ _ _ _ _ Hopen).
    rewrite (bind_Ok _ _ _ _ _ (call_vlm_Some _ _ _ Hreply)).
    rewrite Hparse. unfold Py.get. by rewrite Hkey.
Qed.

End Critic.

(** ** Paths of a run directory *)

Section Paths.
Import PyStrFacts.

Lemma last_char_app s c t :
  last_char (s +:+ String c t) = last_char (String c t).
Proof.
  induction s as [|c' s IH]; [done|].
  rewrite sapp_cons. change (last_char (String c' ?x))
    with (match last_char x with None => Some c' | Some c'' => Some c'' end).
  rewrite IH. simpl. by destruct (last_char t).
Qed.

Lemma path_join_inj dir a b : path_join dir a = path_join dir b → a = b.
Proof.
  unfold path_join. intros H%(inj (String.app dir)).
  by apply (inj (String.app "/")) in H.
Qed.

Lemma iter_details_ne_png run_dir a b :
  iter_details run_dir a ≠ iter_png run_dir b.
Proof.
  unfold iter_details, iter_png. intros H%path_join_inj.
  apply (inj (String.app "iter_")) in H.
  apply (f_equal last_char) in H.
  by rewrite (last_char_app _ "_" "details.json"),
    (last_char_app _ "." "png") in H.
Qed.

Lemma final_output_ne_png run_dir n : final_output run_dir ≠ iter_png run_dir n.
Proof.
  unfold final_output, iter_png. intros H%path_join_inj.
  by rewrite sapp_cons in H.
Qed.

End Paths.

(** ** The refinement loop *)

Section Loop.
Context (E : Env).

Lemma lift_bind_inv_Ok {A B} (o : outcome A) (f : A → M B) w b w' :
  (lift o ≫= f) w = (Ok b, w') → ∃ a, o = Ok a ∧ f a w = (Ok b, w').
Proof.
  intros (a & w1 & [-> ->]%lift_inv_Ok & Hf)%bind_inv_Ok. by exists a.
Qed.

Lemma visualize_inv description mode raw_data p iteration w p' w' :
  visualize E description mode raw_data (Some p) iteration w = (Ok p', w') →
  p' = p.
Proof.
  unfold visualize. destruct (String.eqb mode "plot").
  - unfold _generate_plot. intros (? & ? & _ & Hk)%bind_inv_Ok.
    apply bind_inv_Ok in Hk as (? & ? & _ & Hk).
    apply bind_inv_Ok in Hk as (? & ? & _ & Hk).
    apply bind_inv_Ok in Hk as (? & ? & _ & Hk).
    apply bind_inv_Ok in Hk as (? & ? & _ & Hk).
    by injection Hk as <- _.
  - unfold _generate_diagram. intros (? & ? & _ & Hk)%bind_inv_Ok.
    apply bind_inv_Ok in Hk as (? & ? & _ & Hk).
    by injection Hk as <- _.
Qed.

Lemma image_open_inv p w im w' :
  image_open p w = (Ok im, w') → fs w !! p = Some (FImage im) ∧ w' = w.
Proof.
  unfold image_open, get_world, mbind, M_bind.
  destruct (fs w !! p) as [[im'| |]|]; try done. by intros [= -> ->].
Qed.

Lemma critique_inv p description source_context caption mode w c w' :
  critique E p description source_context caption mode w = (Ok c, w') →
  (∃ im, fs w !! p = Some (FImage im))
  ∧ fs w' = fs w
  ∧ ∃ k, Py.len (critic_suggestions c) = Ok k.
Proof.
  unfold critique.
  intros (im & w1 & [Him ->]%image_open_inv & Hk)%bind_inv_Ok.
  apply bind_inv_Ok in Hk as (response & w2 & [_ ->]%call_vlm_inv & Hk).
  apply bind_inv_Ok in Hk as (result & w3 & Hres & Hk).
  assert (w3 = after_vlm_call w) as ->.
  { destruct (json_loads E response) as [data|].
    - apply lift_bind_inv_Ok in Hres as (? & _ & Hres).
      apply lift_bind_inv_Ok in Hres as (? & _ & Hres).
      by injection Hres as _ <-.
    - by injection Hres as _ <-. }
  apply lift_bind_inv_Ok in Hk as (k & Hlen & Hk).
  apply bind_inv_Ok in Hk as (? & w4 & Hjoin & Hk).
  assert (w4 = after_vlm_call w) as ->.
  { destruct (0 <? k).
    - by apply lift_inv_Ok in Hjoin as [_ ->].
    - by injection Hjoin as <-. }
  injection Hk as <- <-. split; [by exists im|]. split; [done|]. by exists k.
Qed.

Lemma not_taken k c :
  Py.len (critic_suggestions c) = Ok k →
  (0 <? k) && Py.truthy (revised_description c) = false →
  ¬ revision_taken c.
Proof.
  intros Hlen Hcond [(n & Hn & Hpos) Hrev].
  rewrite Hlen in Hn. injection Hn as ->.
  unfold revision_present in Hrev.
  rewrite Hrev, (proj2 (Nat.ltb_lt 0 n) Hpos) in Hcond. done.
Qed.

Lemma taken k c :
  Py.len (critic_suggestions c) = Ok k →
  (0 <? k) && Py.truthy (revised_description c) = true →
  revision_taken c.
Proof.
  intros Hlen [Hpos Hrev]%andb_prop. split; [|done].
  exists k. split; [done|]. by apply Nat.ltb_lt.
Qed.

Section Run.
Context (source_context caption mode run_dir : string) (raw_data : json).

Abbreviation refine :=
  (refine E source_context caption mode run_dir raw_data).

(** What a completed loop leaves: the records it appended form a run, and
    when it executed an iteration, [final_image_path] is the artifact path
    of the last one, which still holds the image the critic opened. *)
Lemma refine_run n i st w st' w' :
  refine n i st w = (Ok st', w') →
  ∃ new,
    history st' = history st ++ new
    ∧ run_of n i (current_description st) new (current_description st')
    ∧ (new = [] → final_image_path st' = final_image_path st ∧ w' = w)
    ∧ (new ≠ [] →
       final_image_path st' = Some (iter_png run_dir (i + length new))
       ∧ ∃ im, fs w' !! iter_png run_dir (i + length new) = Some (FImage im)).
Proof.
  revert i st w. induction n as [|n IH]; intros i st w Hrun.
  - injection Hrun as <- <-. exists []. rewrite app_nil_r.
    split; [done|]. split; [constructor|]. by split.
  - simpl in Hrun.
    apply bind_inv_Ok in Hrun as (image_path & w1 & Hvis & Hrun).
    apply visualize_inv in Hvis as ->.
    apply bind_inv_Ok in Hrun as (c & w2 & Hcrit & Hrun).
    apply critique_inv in Hcrit as ((im & Him) & Hfs & _).
    apply bind_inv_Ok in Hrun as (? & w3 & Hwrite & Hrun).
    unfold write_file, modify in Hwrite. injection Hwrite as _ <-.
    apply lift_bind_inv_Ok in Hrun as (k & Hlen & Hrun).
    set (d := {| iteration := i + 1; description := current_description st;
                 crit := c |}) in *.
    assert (fs (set_fs (λ m, <[iter_details run_dir (i + 1) :=
                                 FJson (iter_data_json d)]> m) w2)
              !! iter_png run_dir (i + 1) = Some (FImage im)) as Hpng.
    { simpl. rewrite lookup_insert_ne by apply iter_details_ne_png.
      by rewrite Hfs. }
    destruct ((0 <? k) && Py.truthy (revised_description c)) eqn:Hcond.
    + apply IH in Hrun as (new & Hhist & Hrunof & Hnil & Hcons).
      simpl in Hhist, Hnil. exists (d :: new). split; [by rewrite Hhist, <- app_assoc|].
      split; [constructor; [by eapply taken|exact Hrunof]|].
      split; [done|]. intros _.
      replace (i + length (d :: new)) with (S i + length new)
        by (simpl; lia).
      destruct new as [|d' new].
      * destruct (Hnil eq_refl) as [-> ->].
        replace (S i + length []) with (i + 1) by (simpl; lia).
        split; [done|]. by exists im.
      * by apply Hcons.
    + injection Hrun as <- <-. exists [d]. simpl.
      split; [done|]. split; [constructor; [by exists k|by eapply not_taken]|].
      split; [done|]. intros _. split; [done|]. by exists im.
Qed.

Lemma run_of_length n i cur h fin : run_of n i cur h fin → length h ≤ n.
Proof. induction 1; simpl; lia. Qed.

Lemma run_of_nonempty n i cur h fin : run_of (S n) i cur h fin → h ≠ [].
Proof. by inversion 1. Qed.

Lemma run_of_first n i cur h fin r :
  run_of n i cur h fin → h !! 0 = Some r → description r = cur.
Proof. destruct 1; simpl; [done|by intros [= <-]..]. Qed.

Lemma run_of_iteration n i cur h fin j r :
  run_of n i cur h fin → h !! j = Some r → iteration r = i + j + 1.
Proof.
  intros Hrun. revert j. induction Hrun as [| |n i cur c rest fin Ht Hrun IH];
    intros j Hj.
  - done.
  - destruct j; [|done]. injection Hj as <-. simpl. lia.
  - destruct j as [|j]; [injection Hj as <-; simpl; lia|].
    rewrite (IH j Hj). lia.
Qed.

Lemma run_of_sized n i cur h fin j r :
  run_of n i cur h fin → h !! j = Some r →
  ∃ k, Py.len (critic_suggestions (crit r)) = Ok k.
Proof.
  intros Hrun. revert j. induction Hrun as [| |n i cur c rest fin Ht Hrun IH];
    intros j Hj.
  - done.
  - destruct j; [|done]. by injection Hj as <-.
  - destruct j as [|j]; [|by apply (IH j)].
    injection Hj as <-. destruct Ht as [(k & Hk & _) _]. by exists k.
Qed.

(** Within the cap, an iteration is the last one exactly when its
    revision is not taken. *)
Lemma run_of_stop n i cur h fin j r :
  run_of n i cur h fin → h !! j = Some r → j + 1 < n →
  (length h = j + 1 ↔ ¬ revision_taken (crit r)).
Proof.
  intros Hrun. revert j. induction Hrun as [| |n i cur c rest fin Ht Hrun IH];
    intros j Hj Hlt.
  - done.
  - destruct j; [|done]. by injection Hj as <-.
  - destruct j as [|j].
    + injection Hj as <-. simpl. split; [|done].
      intros Hlen. destruct rest; [|simpl in Hlen; lia].
      inversion Hrun; subst. lia.
    + simpl. rewrite <- (IH j Hj) by lia. lia.
Qed.

Lemma run_of_next n i cur h fin j r r' :
  run_of n i cur h fin → h !! j = Some r → h !! S j = Some r' →
  revision_taken (crit r) ∧ description r' = revised_description (crit r).
Proof.
  intros Hrun. revert j. induction Hrun as [| |n i cur c rest fin Ht Hrun IH];
    intros j Hj Hj'.
  - done.
  - by destruct j.
  - destruct j as [|j]; [|by apply (IH j)].
    injection Hj as <-. simpl in *. split; [done|].
    by apply (run_of_first _ _ _ _ _ _ Hrun).
Qed.

Lemma run_of_last n i cur h fin r :
  run_of n i cur h fin → last h = Some r →
  fin = description r
  ∨ (revision_taken (crit r) ∧ fin = revised_description (crit r)).
Proof.
  induction 1 as [| |n i cur c rest fin Ht Hrun IH]; intros Hlast.
  - done.
  - injection Hlast as <-. by left.
  - destruct rest as [|d rest].
    + injection Hlast as <-. inversion Hrun; subst. by right.
    + by apply IH.
Qed.

Lemma run_of_empty_suggestions n i cur h fin j r :
  run_of n i cur h fin → h !! j = Some r → suggestions_empty (crit r) →
  length h = S j ∧ fin = description r.
Proof.
  intros Hrun. revert j. induction Hrun as [| |n i cur c rest fin Ht Hrun IH];
    intros j Hj Hempty.
  - done.
  - destruct j; [|done]. by injection Hj as <-.
  - destruct j as [|j].
    + injection Hj as <-. simpl in Hempty.
      destruct Ht as [(k & Hk & Hpos) _]. unfold suggestions_empty in Hempty.
      rewrite Hempty in Hk. injection Hk as <-. lia.
    + destruct (IH j Hj Hempty) as [Hl Hf]. simpl. by rewrite Hl.
Qed.

End Run.
End Loop.

(** ** Renders attempted by the loop *)

Section Costs.
Context (E : Env).

Lemma costs_bind {A B} a b k (m : M A) (f : A → M B) :
  costs a m → (∀ x, costs b (f x)) → a + b ≤ k → costs k (m ≫= f).
Proof.
  intros Hm Hf Hk w o w'. unfold mbind, M_bind.
  destruct (m w) as [[x|e] w1] eqn:Hmw.
  - intros Hfx. apply Hm in Hmw. apply Hf in Hfx. lia.
  - intros [= <- <-]. apply Hm in Hmw. lia.
Qed.

Lemma costs_ret {A} k (a : A) : costs k (mret a).
Proof. intros w o w' [= <- <-]. lia. Qed.

Lemma costs_lift {A} k (o : outcome A) : costs k (lift o).
Proof. intros w o' w' [= <- <-]. lia. Qed.

Lemma costs_write_file k p f : costs k (write_file p f).
Proof. intros w o w' [= <- <-]. unfold renders. simpl. lia. Qed.

Lemma costs_call_vlm k : costs k (call_vlm E).
Proof.
  intros w o w'. unfold call_vlm.
  destruct (vlm_reply E (vlm_calls w)); intros [= <- <-];
    unfold renders; simpl; lia.
Qed.

Lemma costs_image_open k p : costs k (image_open p).
Proof.
  intros w o w'. unfold image_open, get_world, mbind, M_bind.
  destruct (fs w !! p) as [[| |]|]; intros [= <- <-]; lia.
Qed.

Lemma costs_generate_image : costs 1 (generate_image E).
Proof.
  intros w o w'. unfold generate_image.
  destruct (image_reply E (image_calls w)); intros [= <- <-];
    unfold renders; simpl; lia.
Qed.

Lemma costs_execute_plot_code code p : costs 1 (_execute_plot_code E code p).
Proof.
  intros w o w'. rewrite execute_plot_code_eq. intros [= _ <-].
  unfold renders. simpl. lia.
Qed.

Lemma costs_visualize description mode raw_data output_path iteration :
  costs 1 (visualize E description mode raw_data output_path iteration).
Proof.
  unfold visualize. destruct (String.eqb mode "plot").
  - unfold _generate_plot.
    apply (costs_bind 0 1); [by destruct (Py.truthy raw_data);
      [apply costs_lift|apply costs_ret]| |lia]. intros _.
    apply (costs_bind 0 1); [apply costs_call_vlm| |lia]. intros response.
    apply (costs_bind 0 1); [apply costs_lift| |lia]. intros code.
    apply (costs_bind 1 0); [apply costs_execute_plot_code| |lia].
    intros success.
    apply (costs_bind 0 0); [|intros; apply costs_ret|lia].
    destruct (negb success); [apply costs_write_file|apply costs_ret].
  - unfold _generate_diagram.
    apply (costs_bind 1 0); [apply costs_generate_image| |lia]. intros im.
    apply (costs_bind 0 0); [apply costs_write_file| |lia]. intros _.
    apply costs_ret.
Qed.

Lemma costs_critique p description source_context caption mode :
  costs 0 (critique E p description source_context caption mode).
Proof.
  unfold critique.
  apply (costs_bind 0 0); [apply costs_image_open| |lia]. intros im.
  apply (costs_bind 0 0); [apply costs_call_vlm| |lia]. intros response.
  apply (costs_bind 0 0); [| |lia].
  { destruct (json_loads E response); [|apply costs_ret].
    apply (costs_bind 0 0); [apply costs_lift| |lia]. intros cs.
    apply (costs_bind 0 0); [apply costs_lift| |lia]. intros rd.
    apply costs_ret. }
  intros result.
  apply (costs_bind 0 0); [apply costs_lift| |lia]. intros n.
  apply (costs_bind 0 0); [|intros; apply costs_ret|lia].
  destruct (0 <? n); [apply costs_lift|apply costs_ret].
Qed.

Lemma costs_refine source_context caption mode run_dir raw_data n i st :
  costs n (refine E source_context caption mode run_dir raw_data n i st).
Proof.
  revert i st. induction n as [|n IH]; intros i st; [apply costs_ret|].
  simpl.
  apply (costs_bind 1 n); [apply costs_visualize| |lia]. intros image_path.
  apply (costs_bind 0 n); [apply costs_critique| |lia]. intros c.
  apply (costs_bind 0 n); [apply costs_write_file| |lia]. intros _.
  apply (costs_bind 0 n); [apply costs_lift| |lia]. intros k.
  destruct (_ && _); [apply IH|apply costs_ret].
Qed.

End Costs.

(** ** The orchestrator *)

Section Orchestrator.
Context (E : Env).
Context (source_context caption mode run_dir : string) (raw_data : json).

(** [C1] (as amended).  The refinement loop attempts at most [K] renders
    however it ends, and a loop that completes has run at most [K]
    iterations, numbered from 1.  It stops after an iteration below [K]
    exactly when, at that iteration, the suggestions are empty or no
    revised description is present; otherwise (suggestions non-empty and
    a revised description present) the revised description is the
    description of the next iteration. *)
Theorem refine_iterations (iterations : Z) (d : string) (w : world) :
  let K := Z.to_nat iterations in
  (∀ o w',
     refine E source_context caption mode run_dir raw_data K 0
       (initial_state d) w = (o, w') →
     renders w' ≤ renders w + K)
  ∧ (∀ st' w',
       refine E source_context caption mode run_dir raw_data K 0
         (initial_state d) w = (Ok st', w') →
       let h := history st' in
       length h ≤ K
       ∧ (∀ j r, h !! j = Some r → iteration r = j + 1)
       ∧ (∀ j r, h !! j = Some r → j + 1 < K →
            (length h = j + 1 ↔
             suggestions_empty (crit r) ∨ ¬ revision_present (crit r)))
       ∧ (∀ j r r', h !! j = Some r → h !! S j = Some r' →
            has_suggestions (crit r) ∧ revision_present (crit r)
            ∧ description r' = revised_description (crit r))).
Proof.
  intros K. split; [intros o w'; apply costs_refine|].
  intros st' w' (new & Hhist & Hrun & _)%refine_run. simpl in Hhist, Hrun.
  rewrite Hhist. simpl. split; [by eapply run_of_length|].
  split; [intros j r Hj; by rewrite (run_of_iteration _ _ _ _ _ _ _ Hrun Hj)|].
  split.
  - intros j r Hj Hlt. rewrite (run_of_stop _ _ _ _ _ _ _ Hrun Hj Hlt).
    destruct (run_of_sized _ _ _ _ _ _ _ Hrun Hj) as [k Hk].
    unfold revision_taken, has_suggestions, suggestions_empty. split.
    + intros Hnot. destruct k as [|k]; [by left|]. right. intros Hrev.
      apply Hnot. split; [|done]. exists (S k). split; [done|lia].
    + intros [Hempty|Hnorev] [(n & Hn & Hpos) Hrev]; [|done].
      rewrite Hempty in Hn. injection Hn as <-. lia.
  - intros j r r' Hj Hj'.
    by destruct (run_of_next _ _ _ _ _ _ _ _ Hrun Hj Hj') as [[? ?] ?].
Qed.

(** [C6].  In a completed loop, whenever an iteration is followed by
    another, the description of the next one is the revised description
    and the suggestions of that step were non-empty; the description the
    loop ends with was replaced after its last iteration only under the
    same condition; and an iteration with empty suggestions is the last
    one and leaves the current description as it was. *)
Theorem revised_description_adoption (iterations : Z) (d : string)
    (w : world) (st' : loop_state) (w' : world) :
  refine E source_context caption mode run_dir raw_data
    (Z.to_nat iterations) 0 (initial_state d) w = (Ok st', w') →
  let h := history st' in
  (∀ j r r', h !! j = Some r → h !! S j = Some r' →
     description r' = revised_description (crit r)
     ∧ has_suggestions (crit r))
  ∧ (∀ r, last h = Some r →
       current_description st' = description r
       ∨ (current_description st' = revised_description (crit r)
          ∧ has_suggestions (crit r)))
  ∧ (∀ j r, h !! j = Some r → suggestions_empty (crit r) →
       length h = S j ∧ current_description st' = description r).
Proof.
  intros (new & Hhist & Hrun & _)%refine_run. simpl in Hhist, Hrun.
  rewrite Hhist. simpl. split; [|split].
  - intros j r r' Hj Hj'.
    by destruct (run_of_next _ _ _ _ _ _ _ _ Hrun Hj Hj') as [[? ?] ?].
  - intros r Hlast.
    destruct (run_of_last _ _ _ _ _ _ Hrun Hlast) as [?|[[? ?] ?]];
      [by left|by right].
  - intros j r Hj Hempty. by eapply run_of_empty_suggestions.
Qed.

End Orchestrator.

(** ** The final artifact *)

Section FinalArtifact.
Context (E : Env).
Context (source_context caption : string) (candidates : list example).
Context (mode output_dir : string) (raw_data : json).

Lemma copy2_Some p f dst w :
  fs w !! p = Some f →
  copy2 (Some p) dst w = (Ok tt, set_fs (λ m, <[dst := f]> m) w).
Proof.
  intros Hp. unfold copy2, get_world, mbind, M_bind. by rewrite Hp.
Qed.

(** [C10].  With [iterations <= 0] the loop body is never executed:
    after planning, the loop returns its initial state, in which
    [final_image_path] is [None], and [generate] raises [TypeError] at
    the final copy, without having written [final_output.png]; so
    [generate] never returns.  With [iterations >= 1], when the loop
    completes it has executed [n] iterations with [1 <= n <= iterations],
    [final_image_path] is the artifact path of iteration [n], and
    [generate] returns after copying the image found there to
    [final_output.png]. *)
Theorem generate_final_artifact (iterations : Z) (w : world) :
  let run_dir := path_join output_dir (run_id E) in
  let run := generate E source_context caption candidates mode iterations
               output_dir raw_data in
  ((iterations ≤ 0)%Z →
   (∀ p w', run w ≠ (Ok p, w'))
   ∧ (∀ d w1,
        planning E source_context caption candidates mode run_dir w
        = (Ok d, w1) →
        refine E source_context caption mode run_dir raw_data
          (Z.to_nat iterations) 0 (initial_state d) w1
        = (Ok (initial_state d), w1)
        ∧ final_image_path (initial_state d) = None
        ∧ run w = (Raise TypeError, w1)))
  ∧ ((1 ≤ iterations)%Z →
     ∀ d w1 st w2,
       planning E source_context caption candidates mode run_dir w
       = (Ok d, w1) →
       refine E source_context caption mode run_dir raw_data
         (Z.to_nat iterations) 0 (initial_state d) w1 = (Ok st, w2) →
       let n := length (history st) in
       1 ≤ n ≤ Z.to_nat iterations
       ∧ (∀ r, last (history st) = Some r → iteration r = n)
       ∧ final_image_path st = Some (iter_png run_dir n)
       ∧ ∃ im w',
           fs w2 !! iter_png run_dir n = Some (FImage im)
           ∧ run w = (Ok (final_output run_dir), w')
           ∧ fs w' !! final_output run_dir = Some (FImage im)
           ∧ fs w' !! iter_png run_dir n = Some (FImage im)).
Proof.
  intros run_dir run. split.
  - intros Hle. replace (Z.to_nat iterations) with 0 by lia.
    assert (∀ d w1,
      planning E source_context caption candidates mode run_dir w
      = (Ok d, w1) → run w = (Raise TypeError, w1)) as Hraise.
    { intros d w1 Hplan. unfold run, generate. fold run_dir.
      rewrite (bind_Ok _ _ _ _ _ Hplan).
      by replace (Z.to_nat iterations) with 0 by lia. }
    split.
    + intros p w' Hrun. unfold run, generate in Hrun. fold run_dir in Hrun.
      apply bind_inv_Ok in Hrun as (d & w1 & Hplan & Hrun).
      replace (Z.to_nat iterations) with 0 in Hrun by lia. done.
    + intros d w1 Hplan. split; [done|]. split; [done|]. by apply (Hraise d).
  - intros Hge d w1 st w2 Hplan Hloop n.
    destruct (refine_run _ _ _ _ _ _ _ _ _ _ _ _ Hloop)
      as (new & Hhist & Hrunof & _ & Hcons).
    simpl in Hhist, Hrunof. unfold n. rewrite Hhist.
    destruct (Z.to_nat iterations) as [|k] eqn:Hk; [lia|].
    pose proof (run_of_nonempty _ _ _ _ _ Hrunof) as Hne.
    pose proof (run_of_length _ _ _ _ _ Hrunof) as Hlen.
    destruct (Hcons Hne) as [Hfinal (im & Him)]. simpl in Hfinal, Him.
    split; [destruct new; [done|simpl in *; lia]|]. split.
    { intros r Hlast. rewrite last_lookup in Hlast.
      rewrite (run_of_iteration _ _ _ _ _ _ _ Hrunof Hlast).
      destruct new; [done|simpl; lia]. }
    split; [done|]. exists im. eexists. split; [done|]. split.
    { unfold run, generate. fold run_dir.
      rewrite (bind_Ok _ _ _ _ _ Hplan). rewrite Hk.
      rewrite (bind_Ok _ _ _ _ _ Hloop). rewrite Hfinal.
      by rewrite (bind_Ok _ _ _ _ _ (copy2_Some _ _ _ _ Him)). }
    simpl. split.
    + by rewrite lookup_insert_eq.
    + by rewrite lookup_insert_ne by apply final_output_ne_png.
Qed.

End FinalArtifact.

(** ** The properties on concrete runs *)

Section Checked.
Import Scenario.

Lemma retrieve_passthrough_witness :
  (Z.of_nat (length pool5) ≤ 10)%Z
  ∧ retrieve (env []) "ctx" "cap" pool5 10 "diagram" w0 = (Ok pool5, w0).
Proof.
  split; [simpl; lia|].
  apply (retrieve_passthrough (env []) "ctx" "cap" pool5 10 "diagram" w0).
  simpl; lia.
Defined.

Lemma retrieve_result_witness :
  (0 ≤ 2)%Z
  ∧ ∃ res,
      retrieve (env [listing]) "ctx" "cap" pool3 2 "diagram" w0
      = (Ok res, after_vlm_call w0)
      ∧ id <$> res = ["c"; "a"]
      ∧ (∀ e, e ∈ res → e ∈ pool3 ∧ id e ∈ id <$> pool3)
      ∧ (Z.of_nat (length res) ≤ 2)%Z.
Proof.
  split; [lia|].
  destruct (retrieve_result (env [listing]) "ctx" "cap" pool3 2 "diagram" w0)
    as [Hsound Hlisted]; [lia|].
  destruct (Hlisted listing
              (JObj [("selected_ids",
                      JArr [JStr "c"; JStr "zzz"; JStr "a"; JStr "b"])])
              (JArr [JStr "c"; JStr "zzz"; JStr "a"; JStr "b"])
              [JStr "c"; JStr "zzz"; JStr "a"; JStr "b"])
    as (res & Hret & Hids).
  - simpl; lia.
  - reflexivity.
  - vm_compute; reflexivity.
  - reflexivity.
  - reflexivity.
  - repeat constructor.
  - exists res. split; [exact Hret|]. split; [exact Hids|].
    exact (Hsound res _ Hret).
Defined.

(** [C2], as stated, fails: the response parses to an object without any
    of the accepted keys, and [retrieve] returns the empty list, not the
    first two candidates. *)
Lemma retrieve_fallback_counterexample :
  json_loads (env [other_key]) other_key
  = Some (JObj [("ids", JArr [JStr "c"])])
  ∧ (2 < Z.of_nat (length pool3))%Z
  ∧ (retrieve (env [other_key]) "ctx" "cap" pool3 2 "diagram" w0).1 = Ok []
  ∧ (retrieve (env [other_key]) "ctx" "cap" pool3 2 "diagram" w0).1
    ≠ Ok (take 2 pool3).
Proof.
  split; [vm_compute; reflexivity|]. split; [simpl; lia|].
  split; [vm_compute; reflexivity|]. vm_compute. discriminate.
Qed.

Lemma retrieve_fallback_witness :
  (0 ≤ 2 < Z.of_nat (length pool3))%Z
  ∧ retrieve (env ["no json here"]) "ctx" "cap" pool3 2 "diagram" w0
    = (Ok [ex "a"; ex "b"], after_vlm_call w0)
  ∧ retrieve (env [other_key]) "ctx" "cap" pool3 2 "diagram" w0
    = (Ok [], after_vlm_call w0).
Proof.
  split; [simpl; lia|]. split.
  - apply (retrieve_fallback (env ["no json here"]) "ctx" "cap" pool3 2
             "diagram" w0 "no json here"); [simpl; lia|reflexivity|].
    vm_compute; reflexivity.
  - apply (retrieve_fallback (env [other_key]) "ctx" "cap" pool3 2
             "diagram" w0 other_key) with (members := [("ids", JArr [JStr "c"])]);
      [simpl; lia|reflexivity|vm_compute; reflexivity|reflexivity..].
Defined.

Lemma critique_malformed_witness :
  critique (env ["I cannot answer"]) "outputs/run_1/iter_1.png" (JStr "d0")
    "ctx" "cap" "diagram" w_rendered
  = (Ok {| critic_suggestions := JArr []; revised_description := JNull |},
     after_vlm_call w_rendered)
  ∧ critique (env [no_suggestions_key]) "outputs/run_1/iter_1.png" (JStr "d0")
      "ctx" "cap" "diagram" w_rendered
    = (Ok {| critic_suggestions := JArr [];
             revised_description := JStr "d1" |},
       after_vlm_call w_rendered).
Proof.
  split.
  - apply (critique_malformed (env ["I cannot answer"])
             "outputs/run_1/iter_1.png" (JStr "d0") "ctx" "cap" "diagram"
             w_rendered picture "I cannot answer");
      [vm_compute; reflexivity|reflexivity|vm_compute; reflexivity].
  - apply (critique_malformed (env [no_suggestions_key])
             "outputs/run_1/iter_1.png" (JStr "d0") "ctx" "cap" "diagram"
             w_rendered picture no_suggestions_key)
      with (members := [("revised_description", JStr "d1")]);
      [vm_compute; reflexivity|reflexivity|vm_compute; reflexivity
      |reflexivity].
Defined.

Lemma first_at_computed sub s k :
  PyStr.find sub s = Some k → PyStr.first_at sub s k.
Proof. apply PyStrFacts.find_Some. Qed.

Lemma absent_computed sub s : PyStr.find sub s = None → PyStr.absent sub s.
Proof. apply PyStrFacts.find_None. Qed.

(** [C8], as stated, fails: without any fence the result is the stripped
    text, not the full response. *)
Lemma extract_code_counterexample :
  PyStr.absent fence "  import numpy " 
  ∧ _extract_code "  import numpy " = Ok "import numpy"
  ∧ _extract_code "  import numpy " ≠ Ok "  import numpy ".
Proof.
  split; [by apply absent_computed|]. split; [vm_compute; reflexivity|].
  vm_compute. discriminate.
Qed.

Lemma extract_code_spec_witness :
  _extract_code closed_block = Ok "plt.plot(xs)"
  ∧ _extract_code bare_block = Ok "plt.plot(xs)"
  ∧ _extract_code "  import numpy " = Ok "import numpy".
Proof.
  split; [|split].
  - apply (proj1 (extract_code_spec closed_block ""
                    (nl +:+ "plt.plot(xs)" +:+ nl) nl));
      [reflexivity|by apply first_at_computed..].
  - apply (proj1 (proj2 (extract_code_spec bare_block ("Code:" +:+ nl)
                           (nl +:+ "plt.plot(xs)" +:+ nl) "")));
      [by apply absent_computed|reflexivity|by apply first_at_computed..].
  - apply (proj2 (proj2 (extract_code_spec "  import numpy " "" "" ""))).
    by apply absent_computed.
Defined.

Lemma generate_plot_undecodable_output_witness :
  ∃ w',
    _generate_plot (env_undecodable [closed_block]) (JStr "d0") JNull
      (Some "outputs/run_1/iter_1.png") 1 w0
    = (Raise UnicodeDecodeError, w')
    ∧ fs w' = ∅
    ∧ child_runs w' = 1.
Proof.
  apply (generate_plot_undecodable_output (env_undecodable [closed_block])
           (JStr "d0") JNull (Some "outputs/run_1/iter_1.png") 1 w0
           closed_block "plt.plot(xs)" 1%Z ∅).
  - intros H. vm_compute in H. discriminate.
  - reflexivity.
  - vm_compute; reflexivity.
  - reflexivity.
Defined.

Lemma generate_plot_unclosed_fence_witness :
  _extract_code unclosed_block = Raise ValueError
  ∧ ∃ w',
      _generate_plot (env [unclosed_block]) (JStr "d0") JNull
        (Some "outputs/run_1/iter_1.png") 1 w0
      = (Raise ValueError, w')
      ∧ fs w' = fs w0 ∧ child_runs w' = child_runs w0.
Proof.
  apply (generate_plot_unclosed_fence (env [unclosed_block]) "d0" JNull
           (Some "outputs/run_1/iter_1.png") 1 w0 unclosed_block 0).
  - reflexivity.
  - by apply first_at_computed.
  - by apply absent_computed.
Defined.

(** [C1], as stated, fails: with [K = 3] the loop stops after iteration
    1 although the critic's suggestions are not empty, because no revised
    description came with them. *)
Lemma refine_iterations_counterexample :
  ∃ st w',
    refine (env [suggest_only]) "ctx" "cap" "diagram" "outputs/run_1" JNull
      3 0 (initial_state "d0") w0 = (Ok st, w')
    ∧ length (history st) = 1
    ∧ (crit <$> history st)
      = [{| critic_suggestions := JArr [JStr "fix the arrows"];
            revised_description := JNull |}]
    ∧ ¬ suggestions_empty
          {| critic_suggestions := JArr [JStr "fix the arrows"];
             revised_description := JNull |}.
Proof.
  eexists _, _. split; [vm_compute; reflexivity|].
  split; [reflexivity|]. split; [reflexivity|]. intros H. discriminate H.
Qed.

Lemma refine_iterations_witness :
  ∃ st w',
    refine (env [revise; suggest_only]) "ctx" "cap" "diagram" "outputs/run_1"
      JNull (Z.to_nat 3) 0 (initial_state "d0") w0 = (Ok st, w')
    ∧ renders w' ≤ renders w0 + Z.to_nat 3
    ∧ length (history st) ≤ Z.to_nat 3
    ∧ (∀ j r, history st !! j = Some r → iteration r = j + 1).
Proof.
  destruct (refine (env [revise; suggest_only]) "ctx" "cap" "diagram"
              "outputs/run_1" JNull (Z.to_nat 3) 0 (initial_state "d0") w0)
    as [[st|e] w'] eqn:Hrun; [|vm_compute in Hrun; discriminate].
  exists st, w'. split; [reflexivity|].
  destruct (refine_iterations (env [revise; suggest_only]) "ctx" "cap"
              "diagram" "outputs/run_1" JNull 3 "d0" w0) as [Hcost Hdone].
  split; [exact (Hcost _ _ Hrun)|].
  destruct (Hdone st w' Hrun) as (Hlen & Hnum & _). by split.
Defined.

Lemma revised_description_adoption_witness :
  ∃ st w',
    refine (env [revise; suggest_only]) "ctx" "cap" "diagram" "outputs/run_1"
      JNull (Z.to_nat 3) 0 (initial_state "d0") w0 = (Ok st, w')
    ∧ (∀ j r r', history st !! j = Some r → history st !! S j = Some r' →
         description r' = revised_description (crit r)
         ∧ has_suggestions (crit r))
    ∧ (∀ j r, history st !! j = Some r → suggestions_empty (crit r) →
         length (history st) = S j
         ∧ current_description st = description r).
Proof.
  destruct (refine (env [revise; suggest_only]) "ctx" "cap" "diagram"
              "outputs/run_1" JNull (Z.to_nat 3) 0 (initial_state "d0") w0)
    as [[st|e] w'] eqn:Hrun; [|vm_compute in Hrun; discriminate].
  exists st, w'. split; [reflexivity|].
  destruct (revised_description_adoption (env [revise; suggest_only]) "ctx"
              "cap" "diagram" "outputs/run_1" JNull 3 "d0" w0 st w' Hrun)
    as (Hnext & _ & Hempty).
  by split.
Defined.

Lemma generate_final_artifact_witness :
  (∀ p w',
     generate (env ["plan"; "styled"]) "ctx" "cap" [] "diagram" 0 "outputs"
       JNull w0 ≠ (Ok p, w'))
  ∧ ∃ im w',
      generate (env ["plan"; "styled"; revise; suggest_only]) "ctx" "cap" []
        "diagram" 3 "outputs" JNull w0
      = (Ok "outputs/run_1/final_output.png", w')
      ∧ fs w' !! "outputs/run_1/final_output.png" = Some (FImage im).
Proof.
  split.
  - destruct (generate_final_artifact (env ["plan"; "styled"]) "ctx" "cap" []
                "diagram" "outputs" JNull 0 w0) as [Hzero _].
    destruct Hzero as [Hnever _]; [lia|]. exact Hnever.
  - set (E := env ["plan"; "styled"; revise; suggest_only]).
    destruct (planning E "ctx" "cap" [] "diagram" "outputs/run_1" w0)
      as [[d|e] w1] eqn:Hplan; [|vm_compute in Hplan; discriminate].
    destruct (refine E "ctx" "cap" "diagram" "outputs/run_1" JNull
                (Z.to_nat 3) 0 (initial_state d) w1)
      as [[st|e] w2] eqn:Hloop.
    2:{ vm_compute in Hplan. injection Hplan as <- <-.
        vm_compute in Hloop. discriminate. }
    destruct (generate_final_artifact E "ctx" "cap" [] "diagram" "outputs"
                JNull 3 w0) as [_ Hpos].
    destruct (Hpos ltac:(lia) d w1 st w2 Hplan Hloop)
      as (_ & _ & _ & im & w' & _ & Hrun & Him & _).
    by exists im, w'.
Defined.

End Checked.

(** * Further properties of the code *)

(** ** Code extraction: what every result looks like *)

Section ExtractCodeMore.
Import PyStr PyStrFacts.

Lemma lstrip_head s c rest : lstrip s = String c rest → isspace c = false.
Proof.
  induction s as [|a s IH]; [done|]. simpl.
  destruct (isspace a) eqn:Ha; [done|]. by intros [= <- _].
Qed.

Lemma rstrip_head c s :
  isspace c = false → ∃ rest, rstrip (String c s) = String c rest.
Proof.
  intros Hc. simpl. destruct (rstrip s) as [|b r].
  - rewrite Hc. by exists "".
  - by exists (String b r).
Qed.

Lemma last_char_cons c s :
  last_char (String c s)
  = match last_char s with None => Some c | Some c' => Some c' end.
Proof. reflexivity. Qed.

Lemma last_char_None s : last_char s = None → s = "".
Proof.
  destruct s as [|c s]; [done|]. rewrite last_char_cons.
  by destruct (last_char s).
Qed.

Lemma rstrip_last s c : last_char (rstrip s) = Some c → isspace c = false.
Proof.
  induction s as [|a s IH]; [done|]. simpl.
  destruct (rstrip s) as [|b r] eqn:Hr.
  - destruct (isspace a) eqn:Ha; [done|]. by intros [= <-].
  - rewrite last_char_cons. intros H. apply IH.
    destruct (last_char (String b r)) eqn:Hl; [done|].
    by apply last_char_None in Hl.
Qed.

Lemma rstrip_fixed s :
  (∀ c, last_char s = Some c → isspace c = false) → rstrip s = s.
Proof.
  induction s as [|a s IH]; [done|]. intros Hlast. simpl.
  destruct s as [|b s'].
  - simpl. by rewrite (Hlast a eq_refl).
  - rewrite IH; [done|]. intros c Hc. apply Hlast.
    rewrite last_char_cons. by rewrite Hc.
Qed.

Lemma lstrip_fixed s :
  (∀ c rest, s = String c rest → isspace c = false) → lstrip s = s.
Proof.
  destruct s as [|a s]; [done|]. intros H. simpl.
  by rewrite (H a s eq_refl).
Qed.

Lemma strip_head s c rest : strip s = String c rest → isspace c = false.
Proof.
  unfold strip. destruct (lstrip s) as [|a t] eqn:Hl; [done|].
  pose proof (lstrip_head _ _ _ Hl) as Ha.
  destruct (rstrip_head a t Ha) as [r ->]. by intros [= <- _].
Qed.

Lemma strip_last s c : last_char (strip s) = Some c → isspace c = false.
Proof. apply rstrip_last. Qed.

Lemma strip_idem s : strip (strip s) = strip s.
Proof.
  unfold strip at 1. rewrite (lstrip_fixed (strip s)).
  - apply rstrip_fixed, strip_last.
  - intros c rest. apply strip_head.
Qed.

(** The result of [_extract_code] is some text, stripped. *)
Lemma extract_code_is_strip r code :
  _extract_code r = Ok code → ∃ text, code = strip text.
Proof.
  unfold _extract_code.
  destruct (contains python_fence r).
  - destruct (index r python_fence 0) as [k|]; [|done].
    destruct (index r fence _) as [e|]; [|done].
    intros [= <-]. by eexists.
  - destruct (contains fence r).
    + destruct (index r fence 0) as [k|]; [|done].
      destruct (index r fence _) as [e|]; [|done].
      intros [= <-]. by eexists.
    + intros [= <-]. by eexists.
Qed.

(** [X1].  Whatever the response, the code that [_extract_code] returns
    has no whitespace at either end: it does not begin and does not end
    with a whitespace character, and stripping it again changes
    nothing. *)
Theorem extract_code_stripped r code :
  _extract_code r = Ok code →
  strip code = code
  ∧ (∀ c rest, code = String c rest → isspace c = false)
  ∧ (∀ c, last_char code = Some c → isspace c = false).
Proof.
  intros [text ->]%extract_code_is_strip. split; [apply strip_idem|].
  split; [intros c rest; apply strip_head|intros c; apply strip_last].
Qed.

Lemma find_from_None_iff sub s n :
  n ≤ String.length s → find_from sub s n = None ↔ absent sub (drop n s).
Proof.
  intros Hn. unfold find_from.
  destruct (String.length s <? n) eqn:Hl; [apply Nat.ltb_lt in Hl; lia|].
  destruct (find sub (drop n s)) as [k|] eqn:Hf; simpl.
  - split; [done|]. intros Ha. apply find_Some in Hf as [Hk _].
    by destruct (Ha k).
  - split; [|done]. intros _. by apply find_None.
Qed.

Lemma index_Raise_iff s sub n e :
  n ≤ String.length s →
  index s sub n = Raise e ↔ e = ValueError ∧ absent sub (drop n s).
Proof.
  intros Hn. unfold index. rewrite <- (find_from_None_iff sub s n Hn).
  destruct (find_from sub s n); split; try done.
  - by intros [_ ?].
  - by intros [= <-].
  - by intros [-> _].
Qed.

Lemma first_at_bound sub s k :
  first_at sub s k → k + String.length sub ≤ String.length s.
Proof. intros [H _]. by apply occurs_at_length. Qed.

(** [X2].  [_extract_code] raises nothing but [ValueError], and it raises
    exactly when the opening marker it selects is not followed by a
    closing fence: no [```] after the first [```python], or, without any
    [```python], no [```] after the first [```]. *)
Theorem extract_code_raises r e :
  _extract_code r = Raise e ↔
  e = ValueError
  ∧ ∃ k,
      (first_at python_fence r k ∧ absent fence (drop (k + 9) r))
      ∨ (absent python_fence r ∧ first_at fence r k
         ∧ absent fence (drop (k + 3) r)).
Proof.
  unfold _extract_code.
  destruct (find python_fence r) as [k|] eqn:Hpy.
  - apply find_Some in Hpy. pose proof (first_at_bound _ _ _ Hpy) as Hb.
    change (String.length python_fence) with 9 in *.
    rewrite (contains_true _ _ _ Hpy), (index_first _ _ _ Hpy).
    destruct (index r fence (k + 9)) as [e'|e'] eqn:Hidx.
    + split; [done|]. intros [_ (k' & [[Hk' Hab]|[Hno _]])].
      * rewrite (first_at_unique _ _ _ _ Hk' Hpy) in Hab.
        assert (index r fence (k + 9) = Raise ValueError) as Hr
          by by apply index_Raise_iff.
        congruence.
      * destruct Hpy as [Hk _]. by destruct (Hno k).
    + apply index_Raise_iff in Hidx as [-> Hab]; [|done]. split.
      * intros [= <-]. split; [done|]. exists k. by left.
      * by intros [-> _].
  - apply find_None in Hpy. rewrite (contains_false _ _ Hpy).
    destruct (find fence r) as [k|] eqn:Hf.
    + apply find_Some in Hf. pose proof (first_at_bound _ _ _ Hf) as Hb.
      change (String.length fence) with 3 in Hb.
      rewrite (contains_true _ _ _ Hf), (index_first _ _ _ Hf).
      destruct (index r fence (k + 3)) as [e'|e'] eqn:Hidx.
      * split; [done|]. intros [_ (k' & [[Hk' _]|(_ & Hk' & Hab)])].
        -- destruct Hk' as [Hk' _]. by destruct (Hpy k').
        -- rewrite (first_at_unique _ _ _ _ Hk' Hf) in Hab.
           assert (index r fence (k + 3) = Raise ValueError) as Hr
             by by apply index_Raise_iff.
           congruence.
      * apply index_Raise_iff in Hidx as [-> Hab]; [|done]. split.
        -- intros [= <-]. split; [done|]. exists k. by right.
        -- by intros [-> _].
    + apply find_None in Hf. rewrite (contains_false _ _ Hf).
      split; [done|]. intros [_ (k & [[Hk _]|(_ & Hk & _)])].
      * destruct Hk as [Hk _]. by destruct (Hpy k).
      * destruct Hk as [Hk _]. by destruct (Hf k).
Qed.

Lemma substring_drop n m s :
  String.substring n m s = String.substring 0 m (drop n s).
Proof.
  revert s. induction n as [|n IH]; intros s; [by rewrite sdrop_0|].
  destruct s as [|c s]; [by destruct m|]. simpl. apply IH.
Qed.

Lemma substring_0_split m s :
  ∃ rest, s = String.substring 0 m s +:+ rest
          ∧ String.length (String.substring 0 m s) ≤ m.
Proof.
  revert s. induction m as [|m IH]; intros s.
  - exists s. destruct s; (split; [reflexivity|simpl; lia]).
  - destruct s as [|c s]; [exists ""; split; [reflexivity|simpl; lia]|].
    destruct (IH s) as (rest & Hs & Hl). exists rest. simpl.
    rewrite sapp_cons, <- Hs. split; [done|lia].
Qed.

Lemma occurs_at_app_l sub a b i :
  occurs_at sub a i → occurs_at sub (a +:+ b) i.
Proof.
  intros (pre & post & -> & Hl). exists pre, (post +:+ b).
  by rewrite !sapp_assoc.
Qed.

Lemma occurs_at_app_r sub a b i :
  occurs_at sub b i → occurs_at sub (a +:+ b) (String.length a + i).
Proof.
  intros (pre & post & -> & Hl). exists (a +:+ pre), post.
  rewrite sapp_assoc, slength_app. by rewrite Hl.
Qed.

Lemma lstrip_split s : ∃ a, s = a +:+ lstrip s.
Proof.
  induction s as [|c s [a IH]]; [by exists ""|]. simpl.
  destruct (isspace c); [|by exists ""].
  exists (String c a). by rewrite sapp_cons, <- IH.
Qed.

Lemma sapp_nil_r s : s +:+ "" = s.
Proof. induction s as [|c s IH]; [done|]. by rewrite sapp_cons, IH. Qed.

Lemma rstrip_split s : ∃ b, s = rstrip s +:+ b.
Proof.
  induction s as [|c s [b IH]]; [by exists ""|]. simpl.
  destruct (rstrip s) as [|a r] eqn:Hr.
  - destruct (isspace c).
    + by exists (String c s).
    + exists b. rewrite sapp_cons. by rewrite sapp_nil_l in IH; rewrite <- IH.
  - exists b. by rewrite sapp_cons, <- IH.
Qed.

Lemma absent_strip sub s : absent sub s → absent sub (strip s).
Proof.
  intros Ha k Hk. unfold strip in Hk.
  destruct (lstrip_split s) as [a Hs].
  destruct (rstrip_split (lstrip s)) as [b Hl].
  apply (Ha (String.length a + k)). rewrite Hs. apply occurs_at_app_r.
  rewrite Hl. by apply occurs_at_app_l.
Qed.

(** The text before the first occurrence does not contain one. *)
Lemma absent_before_first sub s j :
  0 < String.length sub → first_at sub s j →
  absent sub (String.substring 0 j s).
Proof.
  intros Hsub [_ Hmin] i Hi.
  destruct (substring_0_split j s) as (rest & Hs & Hl).
  pose proof (occurs_at_length _ _ _ Hi) as Hb.
  apply (Hmin i); [lia|]. rewrite Hs. by apply occurs_at_app_l.
Qed.

Lemma index_Ok_inv s sub n e :
  index s sub n = Ok e →
  ∃ j, e = n + j ∧ first_at sub (drop n s) j.
Proof.
  unfold index, find_from. destruct (String.length s <? n); [done|].
  destruct (find sub (drop n s)) as [j|] eqn:Hf; [|done].
  intros [= <-]. exists j. split; [done|]. by apply find_Some.
Qed.

Lemma slice_upto_first r start e :
  index r fence start = Ok e → absent fence (slice r start e).
Proof.
  intros (j & -> & Hj)%index_Ok_inv. unfold slice.
  replace (start + j - start) with j by lia. rewrite substring_drop.
  apply absent_before_first; [simpl; lia|done].
Qed.

(** [X3].  The code that [_extract_code] returns never contains a fence
    marker [```], whatever the response. *)
Theorem extract_code_no_fence r code :
  _extract_code r = Ok code → absent fence code.
Proof.
  unfold _extract_code.
  destruct (find python_fence r) as [k|] eqn:Hpy.
  - apply find_Some in Hpy.
    rewrite (contains_true _ _ _ Hpy), (index_first _ _ _ Hpy).
    destruct (index r fence _) as [e|] eqn:Hidx; [|done].
    intros [= <-]. by apply absent_strip, slice_upto_first.
  - apply find_None in Hpy. rewrite (contains_false _ _ Hpy).
    destruct (find fence r) as [k|] eqn:Hf.
    + apply find_Some in Hf.
      rewrite (contains_true _ _ _ Hf), (index_first _ _ _ Hf).
      destruct (index r fence _) as [e|] eqn:Hidx; [|done].
      intros [= <-]. by apply absent_strip, slice_upto_first.
    + apply find_None in Hf. rewrite (contains_false _ _ Hf).
      intros [= <-]. by apply absent_strip.
Qed.

End ExtractCodeMore.

(** ** Effects: calls made and files touched *)

Section Effects.
Context (E : Env).

Lemma within_refl t i c P w : within t i c P w w.
Proof. unfold within. repeat split; lia || done. Qed.

Lemma within_trans t1 i1 c1 t2 i2 c2 P w1 w2 w3 :
  within t1 i1 c1 P w1 w2 → within t2 i2 c2 P w2 w3 →
  within (t1 + t2) (i1 + i2) (c1 + c2) P w1 w3.
Proof.
  intros (? & ? & ? & Hfs1) (? & ? & ? & Hfs2).
  unfold within. repeat split; try lia.
  intros p Hp. by rewrite Hfs2, Hfs1.
Qed.

Lemma within_weaken t i c P t' i' c' (P' : string → Prop) w w' :
  within t i c P w w' → t ≤ t' → i ≤ i' → c ≤ c' → (∀ p, P p → P' p) →
  within t' i' c' P' w w'.
Proof.
  intros (? & ? & ? & Hfs) ? ? ? HP. unfold within. repeat split; try lia.
  intros p Hp. apply Hfs. intros ?. by apply Hp, HP.
Qed.

Lemma effects_weaken {A} t i c P t' i' c' (P' : string → Prop) (m : M A) :
  effects t i c P m → t ≤ t' → i ≤ i' → c ≤ c' → (∀ p, P p → P' p) →
  effects t' i' c' P' m.
Proof. intros Hm ? ? ? ? w o w' Hw. eapply within_weaken; eauto. Qed.

Lemma effects_bind {A B} t1 i1 c1 t2 i2 c2 P (m : M A) (f : A → M B) :
  effects t1 i1 c1 P m → (∀ x, effects t2 i2 c2 P (f x)) →
  effects (t1 + t2) (i1 + i2) (c1 + c2) P (m ≫= f).
Proof.
  intros Hm Hf w o w'. unfold mbind, M_bind.
  destruct (m w) as [[x|e] w1] eqn:Hmw.
  - intros Hfx. eapply within_trans; [by eapply Hm|by eapply Hf].
  - intros [= <- <-]. eapply within_weaken; [by eapply Hm|lia..|done].
Qed.

(** A step without effect, followed by a continuation. *)
Lemma effects_bind0 {A B} t i c P (m : M A) (f : A → M B) :
  effects 0 0 0 P m → (∀ x, effects t i c P (f x)) →
  effects t i c P (m ≫= f).
Proof. intros Hm Hf. by apply (effects_bind 0 0 0 t i c). Qed.

Lemma effects_ret {A} t i c P (a : A) : effects t i c P (mret a).
Proof.
  intros w o w' [= <- <-].
  eapply within_weaken; [apply (within_refl 0 0 0 P)|lia..|done].
Qed.

Lemma effects_lift {A} t i c P (o : outcome A) : effects t i c P (lift o).
Proof.
  intros w o' w' [= <- <-].
  eapply within_weaken; [apply (within_refl 0 0 0 P)|lia..|done].
Qed.

Lemma effects_raise {A} t i c P e : effects t i c P (raise (A := A) e).
Proof.
  intros w o' w' [= <- <-].
  eapply within_weaken; [apply (within_refl 0 0 0 P)|lia..|done].
Qed.

Lemma effects_get_world t i c P : effects t i c P get_world.
Proof.
  intros w o' w' [= <- <-].
  eapply within_weaken; [apply (within_refl 0 0 0 P)|lia..|done].
Qed.

Lemma effects_write_file t i c (P : string → Prop) p f :
  P p → effects t i c P (write_file p f).
Proof.
  intros HP w o w' [= <- <-]. unfold within. simpl.
  repeat split; try lia. intros q Hq. apply lookup_insert_ne.
  by intros <-.
Qed.

Lemma effects_call_vlm P : effects 1 0 0 P (call_vlm E).
Proof.
  intros w o w'. unfold call_vlm.
  destruct (vlm_reply E (vlm_calls w)); intros [= <- <-];
    unfold within; simpl; repeat split; lia || done.
Qed.

Lemma effects_generate_image P : effects 0 1 0 P (generate_image E).
Proof.
  intros w o w'. unfold generate_image.
  destruct (image_reply E (image_calls w)); intros [= <- <-];
    unfold within; simpl; repeat split; lia || done.
Qed.

Lemma effects_image_open t i c P p : effects t i c P (image_open p).
Proof.
  unfold image_open. apply effects_bind0; [apply effects_get_world|].
  intros w. destruct (fs w !! p) as [[| |]|];
    apply effects_ret || apply effects_raise.
Qed.

Lemma effects_execute_plot_code code p :
  effects 0 0 1 anywhere (_execute_plot_code E code p).
Proof.
  intros w o w'. rewrite execute_plot_code_eq. intros [= _ <-].
  unfold within, anywhere. simpl. repeat split; lia || tauto.
Qed.

Lemma effects_bind_le {A B} t1 i1 c1 t2 i2 c2 t i c P (m : M A) (f : A → M B) :
  effects t1 i1 c1 P m → (∀ x, effects t2 i2 c2 P (f x)) →
  t1 + t2 ≤ t → i1 + i2 ≤ i → c1 + c2 ≤ c →
  effects t i c P (m ≫= f).
Proof.
  intros Hm Hf ? ? ?.
  eapply effects_weaken; [by apply effects_bind|done..].
Qed.

Lemma within_nowhere t w w' :
  within t 0 0 nowhere w w' →
  fs w' = fs w ∧ image_calls w' = image_calls w
  ∧ child_runs w' = child_runs w
  ∧ vlm_calls w ≤ vlm_calls w' ≤ vlm_calls w + t.
Proof.
  intros (? & ? & ? & Hfs). split; [|lia].
  apply map_eq. intros p. apply Hfs. by intros [].
Qed.

Lemma effects_retrieve source_context caption candidates num_examples mode :
  effects 1 0 0 nowhere
    (retrieve E source_context caption candidates num_examples mode).
Proof.
  unfold retrieve. destruct candidates as [|c l]; [apply effects_ret|].
  destruct (_ <=? _)%Z; [apply effects_ret|].
  apply (effects_bind_le 1 0 0 0 0 0); [apply effects_call_vlm| |lia..].
  intros response. destruct (json_loads E response); [|apply effects_ret].
  apply effects_bind0; [apply effects_lift|]. intros ids.
  apply effects_bind0; [apply effects_lift|]. intros eids.
  apply effects_bind0; [apply effects_lift|]. intros selected.
  apply effects_ret.
Qed.

Lemma effects_critique p description source_context caption mode :
  effects 1 0 0 nowhere
    (critique E p description source_context caption mode).
Proof.
  unfold critique.
  apply effects_bind0; [apply effects_image_open|]. intros im.
  apply (effects_bind_le 1 0 0 0 0 0); [apply effects_call_vlm| |lia..].
  intros response. apply effects_bind0.
  { destruct (json_loads E response); [|apply effects_ret].
    apply effects_bind0; [apply effects_lift|]. intros cs.
    apply effects_bind0; [apply effects_lift|]. intros rd.
    apply effects_ret. }
  intros result. apply effects_bind0; [apply effects_lift|]. intros n.
  apply effects_bind0; [|intros; apply effects_ret].
  destruct (0 <? n); [apply effects_lift|apply effects_ret].
Qed.

Lemma effects_generate_diagram description p iteration :
  effects 0 1 0 (λ q, q = p)
    (_generate_diagram E description (Some p) iteration).
Proof.
  unfold _generate_diagram.
  apply (effects_bind_le 0 1 0 0 0 0); [apply effects_generate_image| |lia..].
  intros im. apply effects_bind0; [by apply effects_write_file|].
  intros _. apply effects_ret.
Qed.

Lemma effects_generate_plot description raw_data output_path iteration :
  effects 1 0 1 anywhere
    (_generate_plot E description raw_data output_path iteration).
Proof.
  unfold _generate_plot.
  apply effects_bind0.
  { destruct (Py.truthy raw_data); [apply effects_lift|apply effects_ret]. }
  intros _.
  apply (effects_bind_le 1 0 0 0 0 1); [apply effects_call_vlm| |lia..].
  intros response. apply effects_bind0; [apply effects_lift|]. intros code.
  apply (effects_bind_le 0 0 1 0 0 0);
    [apply effects_execute_plot_code| |lia..].
  intros success. apply effects_bind0; [|intros; apply effects_ret].
  destruct (negb success); [by apply effects_write_file|apply effects_ret].
Qed.

(** [X4].  [retrieve] never touches a file, an image call or a child
    process, and makes at most one call to the text gateway, however it
    ends (result or exception). *)
Theorem retrieve_effects source_context caption candidates num_examples
    mode w o w' :
  retrieve E source_context caption candidates num_examples mode w = (o, w') →
  fs w' = fs w ∧ image_calls w' = image_calls w
  ∧ child_runs w' = child_runs w
  ∧ vlm_calls w ≤ vlm_calls w' ≤ vlm_calls w + 1.
Proof. intros H. by apply within_nowhere, (effects_retrieve _ _ _ _ _ _ _ _ H). Qed.

(** [X5].  [critique] only reads: it writes no file, makes at most one
    call to the text gateway however it ends, and when the artifact
    cannot be opened as an image it raises before calling the gateway at
    all. *)
Theorem critique_effects p description source_context caption mode w o w' :
  critique E p description source_context caption mode w = (o, w') →
  (fs w' = fs w ∧ image_calls w' = image_calls w
   ∧ child_runs w' = child_runs w
   ∧ vlm_calls w ≤ vlm_calls w' ≤ vlm_calls w + 1)
  ∧ ((∀ im, fs w !! p ≠ Some (FImage im)) →
     w' = w
     ∧ o = Raise match fs w !! p with
                 | Some _ => UnidentifiedImageError
                 | None => FileNotFoundError
                 end).
Proof.
  intros H. split; [by apply within_nowhere, (effects_critique _ _ _ _ _ _ _ _ H)|].
  intros Hno.
  assert (image_open p w
          = (Raise match fs w !! p with
                   | Some _ => UnidentifiedImageError
                   | None => FileNotFoundError
                   end, w)) as Hopen.
  { unfold image_open, get_world, mbind, M_bind.
    by destruct (fs w !! p) as [[im|j|b]|]; [destruct (Hno im)|..]. }
  unfold critique in H. rewrite (bind_Raise _ _ _ _ _ Hopen) in H.
  by injection H as <- <-.
Qed.

End Effects.

(** ** Responses that parse but are not recovered from *)

Section Unrecovered.
Context (E : Env).

Lemma select_loop_unhashable (m : gmap string example) eids selected :
  Exists (λ eid, Py.hashable eid = false) eids →
  select_loop m eids selected = Raise TypeError.
Proof.
  intros Hex. revert selected.
  induction Hex as [eid eids Hh|eid eids _ IH]; intros selected; simpl.
  - by rewrite Hh.
  - destruct (Py.hashable eid); [|done].
    destruct eid as [| | | |k| |]; try apply IH.
    destruct (m !! k); apply IH.
Qed.

Lemma get_not_object data k dflt :
  is_object data = false → Py.get data k dflt = Raise AttributeError.
Proof. by destruct data. Qed.

Lemma iter_Raise v e : Py.iter v = Raise e → e = TypeError.
Proof. destruct v; simpl; congruence. Qed.

(** [X6].  For a pool larger than the cap, [retrieve] falls back only on
    a response that fails to parse.  When the gateway gives up it raises
    [RetryError]; when the response parses to a JSON value that is not an
    object it raises [AttributeError]; when the selected ids are a value
    that cannot be iterated (a number, [true]), or list an array or an
    object, it raises [TypeError]. *)
Theorem retrieve_unrecovered source_context caption candidates num_examples
    mode w :
  (0 ≤ num_examples < Z.of_nat (length candidates))%Z →
  let run := retrieve E source_context caption candidates num_examples mode in
  (vlm_reply E (vlm_calls w) = None →
   run w = (Raise RetryError, after_vlm_call w))
  ∧ (∀ response data,
       vlm_reply E (vlm_calls w) = Some response →
       json_loads E response = Some data →
       (is_object data = false →
        run w = (Raise AttributeError, after_vlm_call w))
       ∧ (∀ ids e,
            selected_ids_of data = Ok ids → Py.iter ids = Raise e →
            run w = (Raise TypeError, after_vlm_call w))
       ∧ (∀ ids eids,
            selected_ids_of data = Ok ids → Py.iter ids = Ok eids →
            Exists (λ eid, Py.hashable eid = false) eids →
            run w = (Raise TypeError, after_vlm_call w))).
Proof.
  intros Hcap run. split.
  - intros Hnone. unfold run, retrieve.
    destruct candidates as [|c l]; [simpl in Hcap; lia|].
    rewrite (proj2 (Z.leb_gt _ _) (proj2 Hcap)).
    unfold mbind, M_bind, call_vlm. by rewrite Hnone.
  - intros response data Hreply Hdata. unfold run.
    rewrite (retrieve_model_path _ _ _ _ _ _ _ _ Hcap Hreply), Hdata.
    unfold mbind, M_bind, lift. split; [|split].
    + intros Hobj. unfold selected_ids_of.
      by rewrite (get_not_object _ _ _ Hobj).
    + intros ids e Hids Hiter. rewrite Hids. cbv beta iota.
      rewrite Hiter. by rewrite (iter_Raise _ _ Hiter).
    + intros ids eids Hids Hiter Hex. rewrite Hids. cbv beta iota.
      rewrite Hiter. cbv beta iota.
      by rewrite (select_loop_unhashable _ _ _ Hex).
Qed.

(** [X7].  [critique] recovers only from a response that fails to parse
    and from a missing [critic_suggestions] key.  A response that parses
    to a non-object raises [AttributeError]; suggestions that have no
    length ([null], a number, a boolean) raise [TypeError], and so does a
    list of suggestions with a non-string among its first three. *)
Theorem critique_unrecovered p description source_context caption mode w im
    response data :
  fs w !! p = Some (FImage im) →
  vlm_reply E (vlm_calls w) = Some response →
  json_loads E response = Some data →
  let run := critique E p description source_context caption mode in
  (is_object data = false →
   run w = (Raise AttributeError, after_vlm_call w))
  ∧ (∀ members v,
       data = JObj members →
       Py.assoc "critic_suggestions" members = Some v →
       (Py.len v = Raise TypeError →
        run w = (Raise TypeError, after_vlm_call w))
       ∧ (∀ l, v = JArr l → forallb is_str (take 3 l) = false →
            run w = (Raise TypeError, after_vlm_call w))).
Proof.
  intros Himg Hreply Hdata run.
  assert (image_open p w = (Ok im, w)) as Hopen.
  { unfold image_open, get_world, mbind, M_bind. by rewrite Himg. }
  unfold run, critique.
  rewrite (bind_Ok _ _ _ _ _ Hopen).
  rewrite (bind_Ok _ _ _ _ _ (call_vlm_Some _ _ _ Hreply)), Hdata.
  split.
  - intros Hobj. unfold mbind, M_bind, lift.
    by rewrite (get_not_object _ _ _ Hobj).
  - intros members v -> Hv. unfold Py.get. rewrite Hv. simpl default.
    unfold mbind, M_bind, lift, mret, M_ret. simpl. split.
    + by intros ->.
    + intros l -> Hbad. simpl. rewrite Hbad.
      destruct l as [|x l]; [done|]. done.
Qed.

End Unrecovered.

(** ** The renderers *)

Section Renderers.
Context (E : Env).

(** [X8].  The diagram renderer calls the image service once.  When the
    service gives up, it raises [RetryError] and writes no file (no
    placeholder, unlike the plot renderer); otherwise it saves the image
    it got at the output path (by default [diagram_iter_<n>.png]),
    touches no other file, and returns that path. *)
Theorem generate_diagram_outcome description output_path iteration w :
  let p := diagram_output_path output_path iteration in
  (image_reply E (image_calls w) = None →
   _generate_diagram E description output_path iteration w
   = (Raise RetryError, after_image_call w))
  ∧ (∀ im,
       image_reply E (image_calls w) = Some im →
       _generate_diagram E description output_path iteration w
       = (Ok p, set_fs (λ m, <[p := FImage im]> m) (after_image_call w))).
Proof.
  intros p. unfold _generate_diagram, generate_image, mbind, M_bind.
  split.
  - by intros ->.
  - intros im ->. by destruct output_path.
Qed.

Lemma effects_visualize_diagram description mode raw_data p iteration :
  String.eqb mode "plot" = false →
  effects 0 1 0 (λ q, q = p)
    (visualize E description mode raw_data (Some p) iteration).
Proof.
  intros Hmode. unfold visualize. rewrite Hmode.
  apply effects_generate_diagram.
Qed.

Lemma effects_visualize_plot description mode raw_data output_path iteration :
  String.eqb mode "plot" = true →
  effects 1 0 1 anywhere
    (visualize E description mode raw_data output_path iteration).
Proof.
  intros Hmode. unfold visualize. rewrite Hmode.
  apply effects_generate_plot.
Qed.

(** [X9].  [visualize] renders a plot only for the mode ["plot"]; any
    other mode string is rendered as a diagram.  A diagram render makes
    no text call, starts no child process and touches no file but its
    output path; a plot render never calls the image service. *)
Theorem visualize_dispatch description mode raw_data p iteration w o w' :
  visualize E description mode raw_data (Some p) iteration w = (o, w') →
  (mode ≠ "plot" →
   vlm_calls w' = vlm_calls w ∧ child_runs w' = child_runs w
   ∧ image_calls w' = S (image_calls w)
   ∧ ∀ q, q ≠ p → fs w' !! q = fs w !! q)
  ∧ (mode = "plot" →
     image_calls w' = image_calls w
     ∧ vlm_calls w' ≤ S (vlm_calls w) ∧ child_runs w' ≤ S (child_runs w)).
Proof.
  intros Hrun. split.
  - intros Hmode%String.eqb_neq.
    destruct (effects_visualize_diagram _ _ _ _ _ Hmode _ _ _ Hrun)
      as (? & ? & ? & Hfs).
    split; [lia|]. split; [lia|]. split; [|done].
    revert Hrun. unfold visualize. rewrite Hmode.
    unfold _generate_diagram, generate_image, mbind, M_bind.
    by destruct (image_reply E (image_calls w)); intros [= <- <-].
  - intros Hmode%String.eqb_eq.
    destruct (effects_visualize_plot _ _ _ _ _ Hmode _ _ _ Hrun)
      as (? & ? & ? & _).
    lia.
Qed.

(** [X10].  Running the plot code starts exactly one child process and
    leaves the files as the child left them.  When the child's captured
    output is not valid text it raises [UnicodeDecodeError], whatever the
    return code and whether or not the output file was written.
    Otherwise it does not raise, and it reports success exactly when the
    child exited with code 0 and a file then exists at the output
    path. *)
Theorem execute_plot_code_outcome code output_path w :
  let r := child_run E (child_runs w) (full_code E code output_path) (fs w) in
  ∃ o w',
    _execute_plot_code E code output_path w = (o, w')
    ∧ child_runs w' = S (child_runs w)
    ∧ fs w' = child_files r
    ∧ (o = Raise UnicodeDecodeError ↔ ¬ decodes r)
    ∧ (decodes r →
       ∃ success, o = Ok success
         ∧ (success = true ↔
            ∃ files, r = Completed 0 files ∧ is_Some (files !! output_path))).
Proof.
  intros r. eexists _, _. split; [apply execute_plot_code_eq|].
  split; [done|]. split; [done|]. fold r.
  destruct r as [rc files|files|rc files]; simpl.
  - split; [split; [done|tauto]|]. intros _. eexists. split; [done|].
    destruct (Z.eqb_spec rc 0) as [->|Hrc]; simpl.
    + rewrite bool_decide_eq_true. split; [by exists files|].
      by intros (? & [= <-] & ?).
    + split; [done|]. by intros (? & [= ? _] & _).
  - split; [split; [done|tauto]|]. intros _. eexists. split; [done|].
    split; [done|]. by intros (? & ? & _).
  - split; [split; [tauto|done]|]. by intros [].
Qed.


End Renderers.

(** ** The files of a run *)

Section RunFiles.
Import PyStrFacts.

Lemma sapp_inj_r s1 s2 t : s1 +:+ t = s2 +:+ t → s1 = s2.
Proof.
  revert s2. induction s1 as [|c s1 IH]; intros [|c2 s2] H.
  - done.
  - apply (f_equal String.length) in H.
    rewrite !slength_app in H. simpl in H. lia.
  - apply (f_equal String.length) in H.
    rewrite !slength_app in H. simpl in H. lia.
  - rewrite !sapp_cons in H. injection H as -> H. f_equal. by apply IH.
Qed.

Lemma iter_png_inj run_dir a b : iter_png run_dir a = iter_png run_dir b → a = b.
Proof.
  unfold iter_png. intros H%path_join_inj.
  apply (inj (String.app "iter_")) in H. apply sapp_inj_r in H.
  by apply (inj pretty) in H.
Qed.

Lemma iter_details_inj run_dir a b :
  iter_details run_dir a = iter_details run_dir b → a = b.
Proof.
  unfold iter_details. intros H%path_join_inj.
  apply (inj (String.app "iter_")) in H. apply sapp_inj_r in H.
  by apply (inj pretty) in H.
Qed.

(** [X11].  The files of one run never collide: the artifact paths
    [iter_<n>.png] of different iterations differ, so do the details
    paths, no artifact path is a details path, and none of them is
    [planning.json] or [final_output.png]. *)
Theorem run_paths_distinct run_dir a b :
  (iter_png run_dir a = iter_png run_dir b → a = b)
  ∧ (iter_details run_dir a = iter_details run_dir b → a = b)
  ∧ iter_details run_dir a ≠ iter_png run_dir b
  ∧ planning_json run_dir ≠ iter_png run_dir a
  ∧ planning_json run_dir ≠ iter_details run_dir a
  ∧ final_output run_dir ≠ iter_png run_dir a
  ∧ final_output run_dir ≠ iter_details run_dir a
  ∧ final_output run_dir ≠ planning_json run_dir.
Proof.
  split; [apply iter_png_inj|]. split; [apply iter_details_inj|].
  split; [apply iter_details_ne_png|].
  unfold planning_json, final_output, iter_png, iter_details.
  repeat split; intros H%path_join_inj; by rewrite ?sapp_cons in H.
Qed.

End RunFiles.

(** ** What a run costs and where it writes *)

Section RunEffects.
Context (E : Env).
Context (source_context caption mode run_dir : string) (raw_data : json).

Lemma effects_refine_diagram n i st :
  String.eqb mode "plot" = false →
  effects n n 0 (iteration_files run_dir i)
    (refine E source_context caption mode run_dir raw_data n i st).
Proof.
  intros Hmode. revert i st.
  induction n as [|n IH]; intros i st; [apply effects_ret|]. simpl.
  apply (effects_bind_le 0 1 0 (S n) n 0); [| |lia..].
  { eapply effects_weaken;
      [by apply effects_visualize_diagram|lia..|].
    intros q ->. exists (i + 1). split; [lia|by left]. }
  intros image_path.
  apply (effects_bind_le 1 0 0 n n 0); [| |lia..].
  { eapply effects_weaken; [apply effects_critique|lia..|by intros q []]. }
  intros c. apply effects_bind0.
  { apply effects_write_file. exists (i + 1). split; [lia|by right]. }
  intros _. apply effects_bind0; [apply effects_lift|]. intros k.
  destruct (_ && _); [|apply effects_ret].
  eapply effects_weaken; [apply IH|lia..|].
  intros q (m & Hm & Hq). exists m. split; [lia|done].
Qed.

Lemma effects_refine n i st :
  effects (2 * n) n n anywhere
    (refine E source_context caption mode run_dir raw_data n i st).
Proof.
  revert i st. induction n as [|n IH]; intros i st; [apply effects_ret|].
  simpl refine.
  apply (effects_bind_le 1 1 1 (S (2 * n)) n n); [| |lia..].
  { unfold visualize. destruct (String.eqb mode "plot").
    - eapply effects_weaken; [apply effects_generate_plot|lia..|done].
    - eapply effects_weaken; [apply effects_generate_diagram|lia..|done]. }
  intros image_path.
  apply (effects_bind_le 1 0 0 (2 * n) n n); [| |lia..].
  { eapply effects_weaken; [apply effects_critique|lia..|done]. }
  intros c. apply effects_bind0; [by apply effects_write_file|].
  intros _. apply effects_bind0; [apply effects_lift|]. intros k.
  destruct (_ && _); [apply IH|apply effects_ret].
Qed.

Lemma effects_planning candidates :
  effects 3 0 0 (λ q, q = planning_json run_dir)
    (planning E source_context caption candidates mode run_dir).
Proof.
  unfold planning.
  apply (effects_bind_le 1 0 0 2 0 0); [| |lia..].
  { eapply effects_weaken; [apply effects_retrieve|lia..|by intros q []]. }
  intros examples.
  apply (effects_bind_le 1 0 0 1 0 0); [apply effects_call_vlm| |lia..].
  intros d0.
  apply (effects_bind_le 1 0 0 0 0 0); [apply effects_call_vlm| |lia..].
  intros d. apply effects_bind0; [by apply effects_write_file|].
  intros _. apply effects_ret.
Qed.

Lemma effects_copy2 src dst : effects 0 0 0 (λ q, q = dst) (copy2 src dst).
Proof.
  unfold copy2. destruct src as [p|]; [|apply effects_raise].
  apply effects_bind0; [apply effects_get_world|]. intros w.
  destruct (fs w !! p); [by apply effects_write_file|apply effects_raise].
Qed.

End RunEffects.

Section GenerateEffects.
Context (E : Env).
Context (source_context caption : string) (candidates : list example).
Context (mode output_dir : string) (raw_data : json).

Lemma inside_iteration_files run_dir i q :
  iteration_files run_dir i q → inside run_dir q.
Proof. intros (m & _ & [->| ->]); by eexists. Qed.

(** [X12].  However it ends, [generate] with the cap [K] makes at most
    [3 + 2 K] calls to the text gateway (retriever, planner, stylist,
    then code and critique per iteration), at most [K] calls to the image
    service and at most [K] child runs. *)
Theorem generate_cost (iterations : Z) w o w' :
  generate E source_context caption candidates mode iterations output_dir
    raw_data w = (o, w') →
  let K := Z.to_nat iterations in
  vlm_calls w' ≤ vlm_calls w + 3 + 2 * K
  ∧ image_calls w' ≤ image_calls w + K
  ∧ child_runs w' ≤ child_runs w + K
  ∧ renders w' ≤ renders w + K.
Proof.
  intros Hrun K.
  assert (effects (3 + 2 * K) K K anywhere
            (generate E source_context caption candidates mode iterations
               output_dir raw_data)) as Heff.
  { unfold generate.
    apply (effects_bind_le 3 0 0 (2 * K) K K); [| |lia..].
    { eapply effects_weaken; [apply effects_planning|lia..|done]. }
    intros d.
    apply (effects_bind_le (2 * K) K K 0 0 0); [apply effects_refine| |lia..].
    intros st. apply effects_bind0; [|intros; apply effects_ret].
    eapply effects_weaken; [apply effects_copy2|lia..|done]. }
  destruct (Heff _ _ _ Hrun) as (? & ? & ? & _).
  split; [lia|]. split; [lia|]. split; [lia|].
  revert Hrun. unfold generate.
  assert (costs K (generate E source_context caption candidates mode
                     iterations output_dir raw_data)) as Hcost; last first.
  { intros Hrun. by apply (Hcost _ _ _ Hrun). }
  unfold generate.
  apply (costs_bind 0 K); [| |lia].
  { intros w0 o0 w0' Hp. apply effects_planning in Hp as (_ & ? & ? & _).
    unfold renders. lia. }
  intros d. apply (costs_bind K 0); [apply costs_refine| |lia].
  intros st. apply (costs_bind 0 0); [|intros; apply costs_ret|lia].
  intros w0 o0 w0' Hc. apply effects_copy2 in Hc as (_ & ? & ? & _).
  unfold renders. lia.
Qed.

(** [X13].  In a mode other than ["plot"], [generate] starts no child
    process, makes at most [3 + K] text calls, and leaves every file
    outside its run directory as it was, however it ends. *)
Theorem generate_diagram_confined (iterations : Z) w o w' :
  mode ≠ "plot" →
  generate E source_context caption candidates mode iterations output_dir
    raw_data w = (o, w') →
  let run_dir := path_join output_dir (run_id E) in
  child_runs w' = child_runs w
  ∧ vlm_calls w' ≤ vlm_calls w + 3 + Z.to_nat iterations
  ∧ ∀ q, ¬ inside run_dir q → fs w' !! q = fs w !! q.
Proof.
  intros Hmode%String.eqb_neq Hrun run_dir.
  set (K := Z.to_nat iterations).
  assert (effects (3 + K) K 0 (inside run_dir)
            (generate E source_context caption candidates mode iterations
               output_dir raw_data)) as Heff.
  { unfold generate. fold run_dir. fold K.
    apply (effects_bind_le 3 0 0 K K 0); [| |lia..].
    { eapply effects_weaken; [apply effects_planning|lia..|].
      intros q ->. by eexists. }
    intros d. apply (effects_bind_le K K 0 0 0 0); [| |lia..].
    { eapply effects_weaken; [by apply effects_refine_diagram|lia..|].
      apply inside_iteration_files. }
    intros st. apply effects_bind0; [|intros; apply effects_ret].
    eapply effects_weaken; [apply effects_copy2|lia..|].
    intros q ->. by eexists. }
  destruct (Heff _ _ _ Hrun) as (? & ? & ? & Hfs).
  split; [lia|]. split; [lia|done].
Qed.

End GenerateEffects.

(** ** The audit trail of a run *)

Section AuditTrail.
Context (E : Env).
Context (source_context caption mode run_dir : string) (raw_data : json).

Lemma not_later_iteration_file i :
  ¬ iteration_files run_dir (S i) (iter_png run_dir (i + 1))
  ∧ ¬ iteration_files run_dir (S i) (iter_details run_dir (i + 1)).
Proof.
  split; intros (m & Hm & [Hq|Hq]).
  - apply iter_png_inj in Hq. lia.
  - symmetry in Hq. by apply iter_details_ne_png in Hq.
  - by apply iter_details_ne_png in Hq.
  - apply iter_details_inj in Hq. lia.
Qed.

Lemma refine_trail n i st w st' w' :
  String.eqb mode "plot" = false →
  refine E source_context caption mode run_dir raw_data n i st w
  = (Ok st', w') →
  ∃ new,
    history st' = history st ++ new
    ∧ ∀ j r, new !! j = Some r →
        fs w' !! iter_details run_dir (i + j + 1)
        = Some (FJson (iter_data_json r))
        ∧ ∃ im, fs w' !! iter_png run_dir (i + j + 1) = Some (FImage im).
Proof.
  intros Hmode. revert i st w. induction n as [|n IH]; intros i st w Hrun.
  - injection Hrun as <- <-. exists []. by rewrite app_nil_r.
  - simpl in Hrun.
    apply bind_inv_Ok in Hrun as (image_path & w1 & Hvis & Hrun).
    apply visualize_inv in Hvis as ->.
    apply bind_inv_Ok in Hrun as (c & w2 & Hcrit & Hrun).
    apply critique_inv in Hcrit as ((im & Him) & Hfs & _).
    apply bind_inv_Ok in Hrun as (? & w3 & Hwrite & Hrun).
    unfold write_file, modify in Hwrite. injection Hwrite as _ <-.
    apply lift_bind_inv_Ok in Hrun as (k & Hlen & Hrun).
    set (d := {| iteration := i + 1; description := current_description st;
                 crit := c |}) in *.
    set (w3 := set_fs _ w2) in *.
    assert (fs w3 !! iter_details run_dir (i + 1)
            = Some (FJson (iter_data_json d))) as Hdet.
    { unfold w3. simpl. by rewrite lookup_insert_eq. }
    assert (fs w3 !! iter_png run_dir (i + 1) = Some (FImage im)) as Hpng.
    { unfold w3. simpl.
      rewrite lookup_insert_ne by apply iter_details_ne_png.
      by rewrite Hfs. }
    destruct ((0 <? k) && Py.truthy (revised_description c)).
    + pose proof (effects_refine_diagram E _ _ _ _ _ _ _ _ Hmode _ _ _ Hrun)
        as (_ & _ & _ & Hkeep).
      apply IH in Hrun as (new & Hhist & Hnew). simpl in Hhist.
      exists (d :: new). split; [by rewrite Hhist, <- app_assoc|].
      destruct (not_later_iteration_file i) as [Hn1 Hn2].
      intros [|j] r Hr.
      * injection Hr as <-. replace (i + 0 + 1) with (i + 1) by lia.
        rewrite (Hkeep _ Hn1), (Hkeep _ Hn2). split; [done|by exists im].
      * replace (i + S j + 1) with (S i + j + 1) by lia. by apply Hnew.
    + injection Hrun as <- <-. exists [d]. split; [done|].
      intros [|j] r Hr; [|done]. injection Hr as <-.
      replace (i + 0 + 1) with (i + 1) by lia. split; [done|by exists im].
Qed.

(** [X14].  In a mode other than ["plot"], when the refinement loop
    completes, every iteration it executed has left its record: for the
    [n]-th iteration, [iter_<n>_details.json] holds the description used,
    the critic's suggestions and its revised description, and
    [iter_<n>.png] holds an image. *)
Theorem refine_audit_trail (iterations : Z) (d : string) w st' w' :
  mode ≠ "plot" →
  refine E source_context caption mode run_dir raw_data
    (Z.to_nat iterations) 0 (initial_state d) w = (Ok st', w') →
  ∀ j r, history st' !! j = Some r →
    iteration r = j + 1
    ∧ fs w' !! iter_details run_dir (j + 1) = Some (FJson (iter_data_json r))
    ∧ ∃ im, fs w' !! iter_png run_dir (j + 1) = Some (FImage im).
Proof.
  intros Hmode%String.eqb_neq Hrun j r Hj.
  destruct (refine_run _ _ _ _ _ _ _ _ _ _ _ _ Hrun)
    as (new' & Hhist' & Hrunof & _).
  destruct (refine_trail _ _ _ _ _ _ Hmode Hrun) as (new & Hhist & Hnew).
  simpl in Hhist, Hhist'. split.
  - rewrite Hhist' in Hj.
    by rewrite (run_of_iteration _ _ _ _ _ _ _ Hrunof Hj).
  - rewrite Hhist in Hj. by apply (Hnew j r).
Qed.

(** [X15].  A critic response that cannot be parsed ends the loop at
    that iteration: in a mode other than ["plot"], when the image service
    returns an image and the critic's response fails to parse, the loop
    stops after this one iteration, whatever the cap, with the
    description unchanged and the iteration's artifact as final image. *)
Theorem unparsable_critique_stops n i st w im response :
  mode ≠ "plot" →
  image_reply E (image_calls w) = Some im →
  vlm_reply E (vlm_calls w) = Some response →
  json_loads E response = None →
  ∃ w',
    refine E source_context caption mode run_dir raw_data (S n) i st w
    = (Ok {| current_description := current_description st;
             final_image_path := Some (iter_png run_dir (i + 1));
             history :=
               history st ++
               [{| iteration := i + 1;
                   description := current_description st;
                   crit := {| critic_suggestions := JArr [];
                              revised_description := JNull |} |}] |}, w')
    ∧ image_calls w' = S (image_calls w)
    ∧ vlm_calls w' = S (vlm_calls w).
Proof.
  intros Hmode%String.eqb_neq Himg Hreply Hparse. simpl refine.
  assert (visualize E (current_description st) mode raw_data
            (Some (iter_png run_dir (i + 1))) (i + 1) w
          = (Ok (iter_png run_dir (i + 1)),
             set_fs (λ m, <[iter_png run_dir (i + 1) := FImage im]> m)
               (after_image_call w))) as Hvis.
  { unfold visualize. rewrite Hmode.
    by apply (generate_diagram_outcome E _ (Some _)). }
  rewrite (bind_Ok _ _ _ _ _ Hvis).
  destruct (critique_malformed E (iter_png run_dir (i + 1))
              (current_description st) source_context caption mode
              (set_fs (λ m, <[iter_png run_dir (i + 1) := FImage im]> m)
                 (after_image_call w)) im response) as [Hcrit _].
  { simpl. by rewrite lookup_insert_eq. }
  { done. }
  rewrite (bind_Ok _ _ _ _ _ (Hcrit Hparse)).
  eexists. split; [reflexivity|]. by simpl.
Qed.

End AuditTrail.

(** ** Planning and the pool *)

Section PlanningFacts.
Context (E : Env).

Lemma foldl_insert_last candidates (m0 : gmap string example) k :
  foldl (λ m c, <[id c := c]> m) m0 candidates !! k
  = match last (filter (λ c, id c = k) candidates) with
    | Some c => Some c
    | None => m0 !! k
    end.
Proof.
  revert m0. induction candidates as [|c0 l IH]; intros m0; [done|].
  simpl. rewrite IH. rewrite filter_cons.
  destruct (decide (id c0 = k)) as [Hk|Hk].
  - rewrite last_cons. destruct (last (filter _ l)); [done|].
    by rewrite <- Hk, lookup_insert_eq.
  - destruct (last (filter _ l)); [done|]. by rewrite lookup_insert_ne.
Qed.

(** [X16].  When several candidates of the pool share an id, that id
    stands for the last of them: the lookup built by [retrieve] maps an
    id to the last candidate carrying it, and to nothing when no
    candidate does. *)
Theorem id_to_example_last candidates k :
  id_to_example candidates !! k = last (filter (λ c, id c = k) candidates).
Proof.
  unfold id_to_example. rewrite foldl_insert_last.
  by destruct (last _).
Qed.

(** [X17].  When planning succeeds, [planning.json] is the only file it
    wrote; it records the ids of the retrieved examples, in order, and as
    initial description the stylist's answer (the last of the two text
    calls that follow retrieval), which is also what planning returns;
    the planner's own answer is not recorded. *)
Theorem planning_record source_context caption candidates mode run_dir w d w' :
  planning E source_context caption candidates mode run_dir w = (Ok d, w') →
  ∃ examples w1,
    retrieve E source_context caption candidates NUM_RETRIEVAL_EXAMPLES mode w
    = (Ok examples, w1)
    ∧ vlm_reply E (S (vlm_calls w1)) = Some d
    ∧ vlm_calls w' = vlm_calls w1 + 2
    ∧ fs w'
      = <[planning_json run_dir :=
            FJson (JObj [("retrieved_examples",
                          JArr ((λ e, JStr (id e)) <$> examples));
                         ("initial_description", JStr d)])]> (fs w).
Proof.
  unfold planning.
  intros (examples & w1 & Hret & Hk)%bind_inv_Ok.
  apply bind_inv_Ok in Hk as (d0 & w2 & [_ ->]%call_vlm_inv & Hk).
  apply bind_inv_Ok in Hk as (d1 & w3 & [Hd ->]%call_vlm_inv & Hk).
  apply bind_inv_Ok in Hk as (? & w4 & Hwrite & Hk).
  unfold write_file, modify in Hwrite. injection Hwrite as _ <-.
  injection Hk as <- <-.
  exists examples, w1. split; [done|]. split; [done|].
  split; [simpl; lia|]. simpl.
  by rewrite (proj1 (retrieve_effects _ _ _ _ _ _ _ _ _ Hret)).
Qed.

(** The plot renderer appends the raw data to the description as text:
    when raw data is given and the description is not text, it raises
    [TypeError] before any call is made. *)
Lemma generate_plot_description_type description raw_data output_path
    iteration w :
  Py.truthy raw_data = true →
  (∀ s, description ≠ JStr s) → (∀ l, description ≠ JArr l) →
  _generate_plot E description raw_data output_path iteration w
  = (Raise TypeError, w).
Proof.
  intros Hraw Hstr Harr. unfold _generate_plot. rewrite Hraw.
  unfold mbind at 1, M_bind at 1, lift.
  destruct description as [| | | |s|l|]; try done.
  - by destruct (Hstr s).
  - by destruct (Harr l).
Qed.

End PlanningFacts.

(** ** The planner's prompt *)

Section PlannerPrompt.
Context (files : gmap string file).

Lemma example_lines_spec examples i img_index :
  length (example_lines files examples i img_index).1 = length examples
  ∧ (example_lines files examples i img_index).2
    = img_index + length (filter (λ ex, has_image files ex = true) examples).
Proof.
  revert i img_index. induction examples as [|ex rest IH]; intros i k.
  - simpl. split; [done|lia].
  - cbn [example_lines]. rewrite filter_cons.
    destruct (has_image files ex) eqn:Hh.
    + rewrite decide_True by done.
      pose proof (IH (S i) (S k)) as [H1 H2].
      destruct (example_lines files rest (S i) (S k)) as [lines final].
      simpl in *. split; [by rewrite H1|lia].
    + rewrite decide_False by done.
      pose proof (IH (S i) k) as [H1 H2].
      destruct (example_lines files rest (S i) k) as [lines final].
      simpl in *. split; [by rewrite H1|lia].
Qed.

Lemma example_images_length examples :
  length (example_images files examples)
  ≤ length (filter (λ ex, has_image files ex = true) examples)
  ∧ (length (example_images files examples)
     = length (filter (λ ex, has_image files ex = true) examples)
     ↔ Forall (λ ex, has_image files ex = true →
                     ∃ im, files !! image_path ex = Some (FImage im))
         examples).
Proof.
  unfold example_images. induction examples as [|ex rest [IHle IHeq]].
  - simpl. split; [lia|]. split; [constructor|done].
  - rewrite filter_cons. cbn [omap list_omap].
    destruct (has_image files ex) eqn:Hh.
    + rewrite decide_True by done.
      destruct (files !! image_path ex) as [[im|j|b]|] eqn:Hf; simpl.
      * split; [lia|]. split.
        -- intros Hlen. constructor; [by exists im|]. apply IHeq. lia.
        -- intros [_ Hrest]%Forall_cons. f_equal. by apply IHeq.
      * split; [lia|]. split; [lia|].
        intros [H _]%Forall_cons. destruct (H Hh) as [? ?]. congruence.
      * split; [lia|]. split; [lia|].
        intros [H _]%Forall_cons. destruct (H Hh) as [? ?]. congruence.
      * split; [lia|]. split; [lia|].
        intros [H _]%Forall_cons. destruct (H Hh) as [? ?]. congruence.
    + rewrite decide_False by done. split; [exact IHle|]. rewrite IHeq.
      split.
      * intros Hrest. constructor; [|done]. intros Ht. congruence.
      * by intros [_ ?]%Forall_cons.
Qed.

(** [X19].  [plan] writes one entry per example, numbers its image
    references 1, 2, ... over the examples whose image file exists, and
    attaches the images that open.  So the images attached are never more
    than the references made, and as many exactly when every existing
    image file opens as an image: one file that exists but is no image
    leaves the prompt with a reference to an image that is not there. *)
Theorem plan_image_references examples :
  let lines := (example_lines files examples 1 0).1 in
  let references := (example_lines files examples 1 0).2 in
  let images := example_images files examples in
  length lines = length examples
  ∧ references = length (filter (λ ex, has_image files ex = true) examples)
  ∧ length images ≤ references
  ∧ (length images = references ↔
     Forall (λ ex, has_image files ex = true →
                   ∃ im, files !! image_path ex = Some (FImage im))
       examples).
Proof.
  intros lines references images.
  destruct (example_lines_spec examples 1 0) as [Hlen Hrefs].
  destruct (example_images_length examples) as [Hle Heq].
  unfold references. rewrite Hrefs. by repeat split; try apply Heq.
Qed.

End PlannerPrompt.

(** ** Reference loading *)

Section ReferenceLoading.
Context (is_absolute : string → bool) (joinpath : string → string → string).
Context (reference_dir : string).

Lemma load_example_record item r :
  load_example is_absolute joinpath reference_dir item = Loaded r →
  record_of is_absolute joinpath reference_dir item r.
Proof.
  unfold load_example. destruct item as [| | | | | |members]; try done.
  destruct (resolve_image_path _ _ _ _) as [ip|] eqn:Hip; [|done].
  unfold item_index.
  destruct (Py.assoc "id" members) as [i|] eqn:Hi; [|done].
  destruct (Py.assoc "source_context" members) as [sc|] eqn:Hsc; [|done].
  destruct (Py.assoc "caption" members) as [cap|] eqn:Hcap; [|done].
  intros [= <-]. exists members, i, sc, cap, ip.
  repeat (split; [done|]). simpl.
  revert Hip. unfold resolve_image_path.
  destruct (Py.truthy _) eqn:Ht; [|by intros [= <-]; left].
  destruct (default _ _) as [| | | |p| |] eqn:Hv; try done.
  intros [= <-]. right. exists p. split; [done|]. split; [|done].
  intros ->. by simpl in Ht.
Qed.

Lemma load_examples_records items recs :
  load_examples is_absolute joinpath reference_dir items = Loaded recs →
  Forall2 (record_of is_absolute joinpath reference_dir) items recs.
Proof.
  revert recs. induction items as [|item rest IH]; intros recs.
  - intros [= <-]. constructor.
  - simpl. destruct (load_example _ _ _ item) as [r|] eqn:Hr; [|done].
    destruct (load_examples _ _ _ rest) as [rs|]; [|done].
    intros [= <-]. constructor; [by apply load_example_record|by apply IH].
Qed.

(** [X20].  Without an index file, or with an index that has no
    [examples] key, reference loading returns the empty pool.  When it
    returns a pool, the index is an object and the pool has one record
    per item of [examples], in the same order, each with the item's id,
    context and caption as they are and its image path resolved under
    the reference directory when it is a non-empty relative path. *)
Theorem load_references_records :
  load_references is_absolute joinpath reference_dir None = Loaded []
  ∧ (∀ members,
       Py.assoc "examples" members = None →
       load_references is_absolute joinpath reference_dir
         (Some (JObj members)) = Loaded [])
  ∧ (∀ data recs,
       load_references is_absolute joinpath reference_dir (Some data)
       = Loaded recs →
       ∃ members items,
         data = JObj members
         ∧ Py.iter (default (JArr []) (Py.assoc "examples" members))
           = Ok items
         ∧ length recs = length items
         ∧ Forall2 (record_of is_absolute joinpath reference_dir)
             items recs).
Proof.
  split; [done|]. split.
  - intros members Hnone. simpl. by rewrite Hnone.
  - intros data recs. unfold load_references.
    destruct data as [| | | | | |members]; try done.
    destruct (Py.iter _) as [items|] eqn:Hiter; [|done].
    intros Hload%load_examples_records. exists members, items.
    split; [done|]. split; [done|].
    split; [by rewrite (Forall2_length _ _ _ Hload)|done].
Qed.

(** [X21].  Reference loading is all or nothing: the first item that
    cannot be loaded decides the exception and no partial pool is
    returned.  In particular an item without [id] (its image path being
    absent, empty or a string) raises [KeyError] for ["id"], however many
    items before it were well formed. *)
Theorem load_references_all_or_nothing pre item post :
  Forall (λ it, ∃ r, load_example is_absolute joinpath reference_dir it
                     = Loaded r) pre →
  (∀ e,
     load_example is_absolute joinpath reference_dir item = LoadRaise e →
     load_examples is_absolute joinpath reference_dir (pre ++ item :: post)
     = LoadRaise e)
  ∧ (∀ members ip,
       item = JObj members →
       resolve_image_path is_absolute joinpath reference_dir
         (default (JStr EmptyString) (Py.assoc "image_path" members))
       = Loaded ip →
       Py.assoc "id" members = None →
       load_examples is_absolute joinpath reference_dir (pre ++ item :: post)
       = LoadRaise (KeyError "id")).
Proof.
  intros Hpre.
  assert (∀ e,
    load_example is_absolute joinpath reference_dir item = LoadRaise e →
    load_examples is_absolute joinpath reference_dir (pre ++ item :: post)
    = LoadRaise e) as Hfirst.
  { intros e He. induction Hpre as [|it pre [r Hr] _ IH]; simpl.
    - by rewrite He.
    - by rewrite Hr, IH. }
  split; [done|]. intros members ip -> Hip Hid. apply Hfirst.
  unfold load_example, item_index. by rewrite Hip, Hid.
Qed.

End ReferenceLoading.

(** ** Revised descriptions that are not text *)

Section NonTextRevision.
Context (E : Env).
Context (source_context caption mode run_dir : string) (raw_data : json).

(** [X18].  The revised description is adopted without a check of its
    type.  In plot mode with raw data, when an iteration ends with
    suggestions and a revised description that is present but is not
    text (a number, [true], an object), the next iteration raises
    [TypeError] while building its prompt, before any further call: the
    run aborts although iterations remain. *)
Theorem non_text_revision_raises n i st w p w1 c w2 :
  mode = "plot" → Py.truthy raw_data = true →
  visualize E (current_description st) mode raw_data
    (Some (iter_png run_dir (i + 1))) (i + 1) w = (Ok p, w1) →
  critique E p (current_description st) source_context caption mode w1
  = (Ok c, w2) →
  revision_taken c →
  (∀ s, revised_description c ≠ JStr s) →
  (∀ l, revised_description c ≠ JArr l) →
  ∃ w',
    refine E source_context caption mode run_dir raw_data (S (S n)) i st w
    = (Raise TypeError, w')
    ∧ vlm_calls w' = vlm_calls w2 ∧ child_runs w' = child_runs w2.
Proof.
  intros Hmode Hraw Hvis Hcrit [(k & Hlen & Hpos) Hrev] Hstr Harr.
  pose proof (visualize_inv _ _ _ _ _ _ _ _ _ Hvis) as ->.
  cbn [refine]. rewrite (bind_Ok _ _ _ _ _ Hvis).
  rewrite (bind_Ok _ _ _ _ _ Hcrit).
  set (d := {| iteration := i + 1; description := current_description st;
               crit := c |}).
  set (w3 := set_fs (λ m, <[iter_details run_dir (i + 1) :=
                             FJson (iter_data_json d)]> m) w2).
  assert (write_file (iter_details run_dir (i + 1)) (FJson (iter_data_json d))
            w2 = (Ok tt, w3)) as Hwrite by done.
  rewrite (bind_Ok _ _ _ _ _ Hwrite).
  assert (lift (Py.len (critic_suggestions c)) w3 = (Ok k, w3)) as Hk
    by by rewrite Hlen.
  rewrite (bind_Ok _ _ _ _ _ Hk).
  unfold revision_present in Hrev.
  rewrite Hrev, (proj2 (Nat.ltb_lt 0 k) Hpos). cbn [andb refine].
  assert (visualize E (revised_description c) mode raw_data
            (Some (iter_png run_dir (S i + 1))) (S i + 1) w3
          = (Raise TypeError, w3)) as Hnext.
  { unfold visualize. rewrite Hmode. simpl String.eqb. cbv iota.
    by apply generate_plot_description_type. }
  cbn [current_description]. rewrite (bind_Raise _ _ _ _ _ Hnext).
  by exists w3.
Qed.

End NonTextRevision.

(** ** The further properties on concrete runs *)

Section CheckedMore.
Import Scenario MoreScenarios.

Lemma extract_code_stripped_witness :
  _extract_code closed_block = Ok "plt.plot(xs)"
  ∧ PyStr.strip "plt.plot(xs)" = "plt.plot(xs)".
Proof.
  split; [vm_compute; reflexivity|].
  apply (extract_code_stripped closed_block "plt.plot(xs)").
  vm_compute; reflexivity.
Defined.

Lemma extract_code_raises_witness :
  _extract_code unclosed_block = Raise ValueError.
Proof.
  apply (proj2 (extract_code_raises unclosed_block ValueError)).
  split; [reflexivity|]. exists 0. left.
  split; [by apply first_at_computed|by apply absent_computed].
Defined.

Lemma extract_code_no_fence_witness :
  _extract_code bare_block = Ok "plt.plot(xs)"
  ∧ PyStr.absent fence "plt.plot(xs)".
Proof.
  split; [vm_compute; reflexivity|].
  apply (extract_code_no_fence bare_block "plt.plot(xs)").
  vm_compute; reflexivity.
Defined.

Lemma retrieve_effects_witness :
  ∃ o w',
    retrieve (env [listing]) "ctx" "cap" pool3 2 "diagram" w0 = (o, w')
    ∧ fs w' = fs w0 ∧ vlm_calls w' ≤ vlm_calls w0 + 1.
Proof.
  destruct (retrieve (env [listing]) "ctx" "cap" pool3 2 "diagram" w0)
    as [o w'] eqn:Hrun.
  exists o, w'. split; [reflexivity|].
  destruct (retrieve_effects (env [listing]) "ctx" "cap" pool3 2 "diagram"
              w0 o w' Hrun) as (Hfs & _ & _ & Hcalls).
  split; [exact Hfs|lia].
Defined.

Lemma critique_effects_witness :
  critique (env [revise]) "outputs/run_1/iter_1.png" (JStr "d0") "ctx" "cap"
    "diagram" w0 = (Raise FileNotFoundError, w0).
Proof.
  destruct (critique (env [revise]) "outputs/run_1/iter_1.png" (JStr "d0")
              "ctx" "cap" "diagram" w0) as [o w'] eqn:Hrun.
  destruct (critique_effects (env [revise]) "outputs/run_1/iter_1.png"
              (JStr "d0") "ctx" "cap" "diagram" w0 o w' Hrun) as [_ Hmissing].
  destruct Hmissing as [-> ->]; [|reflexivity].
  intros im H. vm_compute in H. discriminate.
Defined.

Lemma retrieve_unrecovered_witness :
  retrieve (env ["[]"]) "ctx" "cap" pool3 2 "diagram" w0
  = (Raise AttributeError, after_vlm_call w0).
Proof.
  apply (retrieve_unrecovered (env ["[]"]) "ctx" "cap" pool3 2 "diagram" w0)
    with (response := "[]") (data := JArr []);
    [simpl; lia|reflexivity|vm_compute; reflexivity|reflexivity].
Defined.

Lemma critique_unrecovered_witness :
  critique (env [null_suggestions]) "outputs/run_1/iter_1.png" (JStr "d0")
    "ctx" "cap" "diagram" w_rendered
  = (Raise TypeError, after_vlm_call w_rendered).
Proof.
  apply (critique_unrecovered (env [null_suggestions])
           "outputs/run_1/iter_1.png" (JStr "d0") "ctx" "cap" "diagram"
           w_rendered picture null_suggestions
           (JObj [("critic_suggestions", JNull)]))
    with (members := [("critic_suggestions", JNull)]) (v := JNull);
    [vm_compute; reflexivity|reflexivity|vm_compute; reflexivity
    |reflexivity..].
Defined.

Lemma generate_diagram_outcome_witness :
  _generate_diagram (env_down []) (JStr "d0") None 2 w0
  = (Raise RetryError, after_image_call w0)
  ∧ _generate_diagram (env []) (JStr "d0") None 2 w0
    = (Ok "diagram_iter_2.png",
       set_fs (λ m, <["diagram_iter_2.png" := FImage picture]> m)
         (after_image_call w0)).
Proof.
  split.
  - apply (generate_diagram_outcome (env_down []) (JStr "d0") None 2 w0).
    reflexivity.
  - apply (generate_diagram_outcome (env []) (JStr "d0") None 2 w0).
    reflexivity.
Defined.

Lemma visualize_dispatch_witness :
  ∃ o w',
    visualize (env []) (JStr "d0") "Plot" raw (Some "out.png") 1 w0 = (o, w')
    ∧ child_runs w' = child_runs w0 ∧ image_calls w' = S (image_calls w0).
Proof.
  destruct (visualize (env []) (JStr "d0") "Plot" raw (Some "out.png") 1 w0)
    as [o w'] eqn:Hrun.
  exists o, w'. split; [reflexivity|].
  destruct (visualize_dispatch (env []) (JStr "d0") "Plot" raw "out.png" 1
              w0 o w' Hrun) as [Hdiagram _].
  destruct Hdiagram as (_ & Hchild & Himage & _); [discriminate|].
  by split.
Defined.

Lemma generate_cost_witness :
  ∃ o w',
    generate (env ["plan"; "styled"; revise; suggest_only]) "ctx" "cap" []
      "diagram" 3 "outputs" JNull w0 = (o, w')
    ∧ vlm_calls w' ≤ vlm_calls w0 + 3 + 2 * Z.to_nat 3
    ∧ renders w' ≤ renders w0 + Z.to_nat 3.
Proof.
  destruct (generate (env ["plan"; "styled"; revise; suggest_only]) "ctx"
              "cap" [] "diagram" 3 "outputs" JNull w0) as [o w'] eqn:Hrun.
  exists o, w'. split; [reflexivity|].
  destruct (generate_cost (env ["plan"; "styled"; revise; suggest_only])
              "ctx" "cap" [] "diagram" "outputs" JNull 3 w0 o w' Hrun)
    as (Hcalls & _ & _ & Hrenders).
  by split.
Defined.

Lemma generate_diagram_confined_witness :
  ∃ o w',
    generate (env ["plan"; "styled"; revise; suggest_only]) "ctx" "cap" []
      "diagram" 3 "outputs" JNull w_rendered = (o, w')
    ∧ child_runs w' = child_runs w_rendered
    ∧ (¬ inside "outputs/run_1" "data/notes.txt" →
       fs w' !! "data/notes.txt" = fs w_rendered !! "data/notes.txt").
Proof.
  destruct (generate (env ["plan"; "styled"; revise; suggest_only]) "ctx"
              "cap" [] "diagram" 3 "outputs" JNull w_rendered)
    as [o w'] eqn:Hrun.
  exists o, w'. split; [reflexivity|].
  destruct (generate_diagram_confined
              (env ["plan"; "styled"; revise; suggest_only]) "ctx" "cap" []
              "diagram" "outputs" JNull 3 w_rendered o w')
    as (Hchild & _ & Hfs); [discriminate|exact Hrun|].
  split; [exact Hchild|]. exact (Hfs "data/notes.txt").
Defined.

Lemma refine_audit_trail_witness :
  ∃ st w',
    refine (env [revise; suggest_only]) "ctx" "cap" "diagram" "outputs/run_1"
      JNull (Z.to_nat 3) 0 (initial_state "d0") w0 = (Ok st, w')
    ∧ ∀ j r, history st !! j = Some r →
        iteration r = j + 1
        ∧ fs w' !! iter_details "outputs/run_1" (j + 1)
          = Some (FJson (iter_data_json r))
        ∧ ∃ im, fs w' !! iter_png "outputs/run_1" (j + 1) = Some (FImage im).
Proof.
  destruct (refine (env [revise; suggest_only]) "ctx" "cap" "diagram"
              "outputs/run_1" JNull (Z.to_nat 3) 0 (initial_state "d0") w0)
    as [[st|e] w'] eqn:Hrun; [|vm_compute in Hrun; discriminate].
  exists st, w'. split; [reflexivity|].
  apply (refine_audit_trail (env [revise; suggest_only]) "ctx" "cap" "diagram"
           "outputs/run_1" JNull 3 "d0" w0 st w'); [discriminate|exact Hrun].
Defined.

Lemma unparsable_critique_stops_witness :
  ∃ w',
    refine (env ["I cannot answer"]) "ctx" "cap" "diagram" "outputs/run_1"
      JNull 3 0 (initial_state "d0") w0
    = (Ok {| current_description := JStr "d0";
             final_image_path := Some (iter_png "outputs/run_1" 1);
             history :=
               [{| iteration := 1; description := JStr "d0";
                   crit := {| critic_suggestions := JArr [];
                              revised_description := JNull |} |}] |}, w')
    ∧ image_calls w' = 1 ∧ vlm_calls w' = 1.
Proof.
  apply (unparsable_critique_stops (env ["I cannot answer"]) "ctx" "cap"
           "diagram" "outputs/run_1" JNull 2 0 (initial_state "d0") w0
           picture "I cannot answer");
    [discriminate|reflexivity|reflexivity|vm_compute; reflexivity].
Defined.

Lemma planning_record_witness :
  ∃ d w',
    planning (env ["plan"; "styled"]) "ctx" "cap" pool3 "diagram"
      "outputs/run_1" w0 = (Ok d, w')
    ∧ vlm_reply (env ["plan"; "styled"]) 1 = Some d
    ∧ ∃ examples,
        fs w'
        = <[planning_json "outputs/run_1" :=
              FJson (JObj [("retrieved_examples",
                            JArr ((λ e, JStr (id e)) <$> examples));
                           ("initial_description", JStr d)])]> (fs w0).
Proof.
  set (E := env ["plan"; "styled"]).
  destruct (planning E "ctx" "cap" pool3 "diagram" "outputs/run_1" w0)
    as [[d|e] w'] eqn:Hrun; [|vm_compute in Hrun; discriminate].
  exists d, w'. split; [reflexivity|].
  destruct (planning_record E "ctx" "cap" pool3 "diagram" "outputs/run_1"
              w0 d w' Hrun) as (examples & w1 & Hret & Hd & _ & Hfs).
  split; [|by exists examples].
  (* the pool has fewer candidates than the cap: no retrieval call *)
  assert (w1 = w0) as ->.
  { pose proof (retrieve_passthrough E "ctx" "cap" pool3
                  NUM_RETRIEVAL_EXAMPLES "diagram" w0) as [Hpass _];
      [vm_compute; discriminate|].
    rewrite Hpass in Hret. by injection Hret. }
  exact Hd.
Defined.

Lemma non_text_revision_raises_witness :
  ∃ w',
    refine (env [closed_block; numeric_revision; closed_block]) "ctx" "cap"
      "plot" "outputs/run_1" raw 3 0 (initial_state "d0") w0
    = (Raise TypeError, w')
    ∧ vlm_calls w' = 2 ∧ child_runs w' = 1.
Proof.
  set (E := env [closed_block; numeric_revision; closed_block]).
  destruct (visualize E (JStr "d0") "plot" raw
              (Some (iter_png "outputs/run_1" (0 + 1))) (0 + 1) w0)
    as [[p|e] w1] eqn:Hvis; [|vm_compute in Hvis; discriminate].
  destruct (critique E p (JStr "d0") "ctx" "cap" "plot" w1)
    as [[c|e] w2] eqn:Hcrit.
  2:{ vm_compute in Hvis. injection Hvis as <- <-.
      vm_compute in Hcrit. discriminate. }
  assert (c = {| critic_suggestions := JArr [JStr "fix the axis"];
                 revised_description := JInt 5 |}
          ∧ vlm_calls w2 = 2 ∧ child_runs w2 = 1) as (-> & Hv & Hc).
  { vm_compute in Hvis. injection Hvis as <- <-.
    vm_compute in Hcrit. injection Hcrit as <- <-. by vm_compute. }
  set (c := {| critic_suggestions := JArr [JStr "fix the axis"];
               revised_description := JInt 5 |}) in *.
  assert (revision_taken c) as Htaken.
  { split; [|reflexivity]. exists 1. split; [reflexivity|lia]. }
  destruct (non_text_revision_raises E "ctx" "cap" "plot" "outputs/run_1" raw
              1 0 (initial_state "d0") w0 p w1 c w2 eq_refl eq_refl Hvis
              Hcrit Htaken ltac:(discriminate) ltac:(discriminate))
    as (w' & Hrun & Hv' & Hc').
  exists w'. split; [exact Hrun|]. split; congruence.
Defined.

Lemma load_references_records_witness :
  load_references is_absolute joinpath "refs"
    (Some (JObj [("examples", JArr [good_item])]))
  = Loaded [JObj [("id", JStr "ref_1"); ("source_context", JStr "ctx");
                  ("caption", JStr "cap");
                  ("image_path", JStr "refs/images/ref_1.png");
                  ("category", JNull)]]
  ∧ length [good_item] = 1.
Proof.
  split; [reflexivity|].
  destruct (load_references_records is_absolute joinpath "refs")
    as (_ & _ & Hrecs).
  destruct (Hrecs (JObj [("examples", JArr [good_item])]) _ eq_refl)
    as (members & items & _ & _ & _ & _).
  reflexivity.
Defined.

Lemma load_references_all_or_nothing_witness :
  load_examples is_absolute joinpath "refs"
    ([good_item; good_item] ++ item_without_id :: [good_item])
  = LoadRaise (KeyError "id").
Proof.
  apply (load_references_all_or_nothing is_absolute joinpath "refs"
           [good_item; good_item] item_without_id [good_item])
    with (members := [("source_context", JStr "ctx"); ("caption", JStr "cap")])
         (ip := JStr "").
  - repeat constructor; by eexists.
  - reflexivity.
  - reflexivity.
  - reflexivity.
Defined.


End CheckedMore.
